(** * py-param-cad: parameter validation and revision lifecycle

    A shallow embedding of the validation engine
    ([core/validation_engine.py]), the revision store
    ([data/repositories.py], [data/models.py]) and the generation pipeline
    ([core/piece_controller.py]), with the properties of the specification
    proved about them.

    Python strings are modelled by [string] (code points below 128 are
    modelled exactly; [str.upper] and [chr (ord c + 1)] are only used on
    such characters), Python dicts by [gmap], SQL tables by lists of rows in
    insertion order, and exceptions by an explicit result type. *)

From Stdlib Require Import Strings.Ascii Strings.String Sorting.Permutation Floats ZArith.
From stdpp Require Import base option list strings gmap.

Local Open Scope string_scope.
Local Open Scope nat_scope.
Local Open Scope list_scope.

(** ** Revision codes: [_increment_revision_code] *)

Module RevisionCode.

Definition ord (c : ascii) : nat := nat_of_ascii c.
Definition chr (n : nat) : ascii := ascii_of_nat n.

(** [str.upper] on one character: the letters a..z move to A..Z. *)
Definition upper_char (c : ascii) : ascii :=
  if (97 <=? ord c) && (ord c <=? 122) then chr (ord c - 32) else c.

Definition upper (s : string) : string :=
  string_of_list_ascii (map upper_char (list_ascii_of_string s)).

(** The [while carry and idx >= 0] loop. [n] is the number of positions
    still to visit, the source's [idx + 1]; the result is the final
    [chars] and the final [carry]. *)
Fixpoint increment_loop (n : nat) (chars : list ascii) : list ascii * bool :=
  match n with
  | 0 => (chars, true)
  | S idx =>
      match chars !! idx with
      | Some c =>
          if Ascii.eqb c "Z"
          then increment_loop idx (<[idx := "A"%char]> chars)
          else (<[idx := chr (ord c + 1)]> chars, false)
      | None => (chars, true)
      end
  end.

Definition _increment_revision_code (code : string) : string :=
  let chars := list_ascii_of_string (upper code) in
  let '(chars', carry) := increment_loop (length chars) chars in
  string_of_list_ascii (if carry then "A"%char :: chars' else chars').

(** *** The sequence A, B, ..., Z, AA, AB, ...

    Term [n] (counting from 1) is the bijective base-26 numeral of [n]:
    its last letter is letter number [(n - 1) mod 26] and the letters
    before it are term [(n - 1) / 26]. Term 0 is the empty string. *)
Definition letter (k : nat) : ascii := chr (65 + k).

Fixpoint code_digits (fuel n : nat) : list ascii :=
  match fuel, n with
  | S fuel', S m => code_digits fuel' (m / 26) ++ [letter (m mod 26)]
  | _, _ => []
  end.

Definition nth_code (n : nat) : string := string_of_list_ascii (code_digits n n).

(** The number a code stands for: A..Z are the digits 1..26. *)
Definition code_value (l : list ascii) : nat :=
  fold_left (fun acc c => 26 * acc + (ord c - 64)) l 0.

Definition is_upper_letter (c : ascii) : bool := (65 <=? ord c) && (ord c <=? 90).
Definition is_letter (c : ascii) : bool :=
  is_upper_letter c || ((97 <=? ord c) && (ord c <=? 122)).

End RevisionCode.

Import RevisionCode.

(** The list-level view of [_increment_revision_code] after [upper]. *)
Definition incr_chars (l : list ascii) : list ascii :=
  let '(l', carry) := increment_loop (length l) l in
  if carry then "A"%char :: l' else l'.

(** ** Exceptions *)

Inductive exn : Type :=
  | ValueError (culprit : string)
  | IntegrityError (constraint : string).

(** A call either returns a value or raises. *)
Inductive result (A : Type) : Type :=
  | Ok (a : A)
  | Raise (e : exn).
Arguments Ok {A} a.
Arguments Raise {A} e.

Global Instance result_ret : MRet result := fun A a => Ok a.
Global Instance result_bind : MBind result := fun A B f r =>
  match r with
  | Ok a => f a
  | Raise e => Raise e
  end.

Definition returns {A : Type} (r : result A) : bool :=
  match r with Ok _ => true | Raise _ => false end.

(** ** Parameter sets and the collaborators outside the repository *)

(** A parameter value: a number, a boolean or a string. *)
Inductive value : Type :=
  | VInt (n : Z)
  | VFloat (x : float)
  | VBool (b : bool)
  | VStr (s : string).

Abbreviation parameters := (gmap string value).

(** What [bool(eval(expression, _SAFE_GLOBALS, parameters))] does: it yields
    a truth value or raises an exception [exc], kept as [str(exc)]. *)
Inductive eval_outcome : Type :=
  | Passed (passed : bool)
  | Raised (exc : string).

(** One raw rule dict of [piece_catalog.json]. *)
Abbreviation rule := (gmap string string).

(** One entry of the catalog's ["pieces"] array: its ["code"] and its
    ["validation_rules"], when the key is present. *)
Record piece_data : Type := {
  pd_code : string;
  pd_validation_rules : option (list rule)
}.

(** Python's built-ins and the process-wide objects the modelled code
    reads: [eval], [json.dumps], the loaded [catalog], [settings.outputs_dir]
    and [re.sub(r"[^\w\-]", "_", name)]. *)
Record Collaborators : Type := {
  py_eval : string -> parameters -> eval_outcome;
  json_dumps : parameters -> string;
  json_dumps_list : list string -> string;
  catalog_pieces : list piece_data;
  outputs_dir : list string;
  re_sub_nonword : string -> string
}.

(** ** [core/validation_engine.py] *)

Inductive Severity : Type := ERROR | WARNING.

Global Instance Severity_eq_dec : EqDecision Severity.
Proof. solve_decision. Defined.

(** [Severity(value)]: the enum member with that value, or [ValueError]. *)
Definition Severity_of (v : string) : result Severity :=
  if String.eqb v "error" then Ok ERROR
  else if String.eqb v "warning" then Ok WARNING
  else Raise (ValueError v).

Record ValidationMessage : Type := {
  rule_id : string;
  severity : Severity;
  message : string
}.

Record ValidationResult : Type := {
  is_valid : bool;
  messages : list ValidationMessage
}.

Definition is_error (m : ValidationMessage) : bool := bool_decide (severity m = ERROR).
Definition is_warning (m : ValidationMessage) : bool := bool_decide (severity m = WARNING).

Definition errors (r : ValidationResult) : list ValidationMessage :=
  List.filter is_error (messages r).
Definition warnings (r : ValidationResult) : list ValidationMessage :=
  List.filter is_warning (messages r).

Section ValidationEngine.

Variable C : Collaborators.

(** The body of [for rule in rules], from the messages so far to the
    messages after the rule. *)
Definition validate_rule (params : parameters) (msgs : list ValidationMessage)
    (r : rule) : result (list ValidationMessage) :=
  let rule_id := default "UNKNOWN" (r !! "rule_id") in
  let expression := default "True" (r !! "expression") in
  severity ← Severity_of (default "error" (r !! "severity"));
  let message := default "Validation failed." (r !! "message") in
  match py_eval C expression params with
  | Raised exc =>
      Ok (msgs ++ [{| rule_id := rule_id; severity := ERROR;
                      message := "[Error evaluando regla: " +:+ exc +:+ "] " +:+ message |}])
  | Passed passed =>
      if negb passed
      then Ok (msgs ++ [{| rule_id := rule_id; severity := severity; message := message |}])
      else Ok msgs
  end.

Fixpoint validate_loop (params : parameters) (rules : list rule)
    (msgs : list ValidationMessage) : result (list ValidationMessage) :=
  match rules with
  | [] => Ok msgs
  | r :: rules' => msgs' ← validate_rule params msgs r; validate_loop params rules' msgs'
  end.

Definition validate (params : parameters) (rules : list rule) : result ValidationResult :=
  msgs ← validate_loop params rules [];
  let has_errors := existsb is_error msgs in
  Ok {| is_valid := negb has_errors; messages := msgs |}.

End ValidationEngine.

(** ** [data/models.py]: the rows of the relational store

    Primary keys are SQLite rowids. Of [PieceType] and [Design] only the
    columns read by the modelled code are kept; [Revision] has every
    column. *)

Module Models.

Record PieceType : Type := {
  pt_id : nat;
  pt_code : string
}.

Record Design : Type := {
  d_id : nat;
  d_piece_type_id : nat;
  d_name : string
}.

Record Revision : Type := {
  rev_id : nat;
  design_id : nat;
  revision_code : string;
  parameters_json : string;
  description : option string;
  generated_at : string;
  generated_by : string;
  fcstd_path : option string;
  step_path : option string;
  dxf_path : option string;
  pdf_path : option string;
  bom_xlsx_path : option string;
  bom_pdf_path : option string;
  eco_number : option string;
  eco_reason : option string;
  eco_status : string;
  validation_passed : Z;
  validation_warnings_json : option string
}.

End Models.

Import Models.

(** The three tables, each in insertion order. *)
Record database : Type := {
  piece_types : list PieceType;
  designs : list Design;
  revisions : list Revision
}.

Definition with_revisions (db : database) (revs : list Revision) : database :=
  {| piece_types := piece_types db; designs := designs db; revisions := revs |}.

(** The rows of one design, in creation order. *)
Definition revisions_of (db : database) (d : nat) : list Revision :=
  List.filter (fun r => design_id r =? d) (revisions db).

(** [session.get(Model, pk)]. *)
Definition get_piece_type (db : database) (pk : nat) : option PieceType :=
  List.find (fun p => pt_id p =? pk) (piece_types db).

(** ** [data/repositories.py] *)

Module DesignRepository.

Definition get_by_id (db : database) (design_id : nat) : option Design :=
  List.find (fun d => d_id d =? design_id) (designs db).

End DesignRepository.

Module RevisionRepository.

Definition get_by_id (db : database) (revision_id : nat) : option Revision :=
  List.find (fun r => rev_id r =? revision_id) (revisions db).

(** [ORDER BY generated_at ASC]: text columns compare byte-wise, and rows
    with equal keys keep their insertion order, as SQLite's sorter leaves
    them. *)
Fixpoint insert_by_generated_at (r : Revision) (l : list Revision) : list Revision :=
  match l with
  | [] => [r]
  | x :: l' =>
      if String.leb (generated_at r) (generated_at x)
      then r :: x :: l'
      else x :: insert_by_generated_at r l'
  end.

Definition order_by_generated_at (l : list Revision) : list Revision :=
  foldr insert_by_generated_at [] l.

Definition get_by_design (db : database) (d : nat) : list Revision :=
  order_by_generated_at (revisions_of db d).

Definition get_next_revision_code (db : database) (d : nat) : string :=
  let revisions := get_by_design db d in
  match last revisions with
  | None => "A"
  | Some r => _increment_revision_code (revision_code r)
  end.

(** The rowid given to a new row: one more than the largest in the table. *)
Definition next_rowid (l : list Revision) : nat := S (max_list (map rev_id l)).

(** Membership in [{"draft", "issued", "obsolete"}], the set of
    [update_eco_status] and of the check constraint on the column. *)
Definition allowed_eco_status (status : string) : bool :=
  String.eqb status "draft" || String.eqb status "issued" || String.eqb status "obsolete".

(** [session.add(rev); session.flush()]: the INSERT, under the table's
    constraints: the foreign key to [designs], the uniqueness of
    [(design_id, revision_code)] and the check on [eco_status]. SQLite does
    not enforce the declared lengths of the text columns. *)
Definition flush_insert (db : database) (rev : Revision) : result database :=
  if negb (existsb (fun d => d_id d =? design_id rev) (designs db))
  then Raise (IntegrityError "FOREIGN KEY constraint failed")
  else if existsb (fun r => (design_id r =? design_id rev) &&
                            String.eqb (revision_code r) (revision_code rev))
                  (revisions db)
  then Raise (IntegrityError "uq_revisions_design_rev")
  else if negb (allowed_eco_status (eco_status rev))
  then Raise (IntegrityError "ck_revisions_eco_status")
  else Ok (with_revisions db (revisions db ++ [rev])).

(** Attribute assignments on a mapped [Revision] object. *)
Definition set_eco (rev : Revision) (status : string)
    (number reason : option string) : Revision :=
  {| rev_id := rev_id rev; design_id := design_id rev;
     revision_code := revision_code rev; parameters_json := parameters_json rev;
     description := description rev; generated_at := generated_at rev;
     generated_by := generated_by rev;
     fcstd_path := fcstd_path rev; step_path := step_path rev;
     dxf_path := dxf_path rev; pdf_path := pdf_path rev;
     bom_xlsx_path := bom_xlsx_path rev; bom_pdf_path := bom_pdf_path rev;
     eco_number := number; eco_reason := reason; eco_status := status;
     validation_passed := validation_passed rev;
     validation_warnings_json := validation_warnings_json rev |}.

Definition set_paths (rev : Revision)
    (fcstd step dxf pdf bom_xlsx bom_pdf : option string) : Revision :=
  {| rev_id := rev_id rev; design_id := design_id rev;
     revision_code := revision_code rev; parameters_json := parameters_json rev;
     description := description rev; generated_at := generated_at rev;
     generated_by := generated_by rev;
     fcstd_path := fcstd; step_path := step;
     dxf_path := dxf; pdf_path := pdf;
     bom_xlsx_path := bom_xlsx; bom_pdf_path := bom_pdf;
     eco_number := eco_number rev; eco_reason := eco_reason rev;
     eco_status := eco_status rev;
     validation_passed := validation_passed rev;
     validation_warnings_json := validation_warnings_json rev |}.

Definition set_validation (rev : Revision) (passed : Z)
    (warnings_json : option string) : Revision :=
  {| rev_id := rev_id rev; design_id := design_id rev;
     revision_code := revision_code rev; parameters_json := parameters_json rev;
     description := description rev; generated_at := generated_at rev;
     generated_by := generated_by rev;
     fcstd_path := fcstd_path rev; step_path := step_path rev;
     dxf_path := dxf_path rev; pdf_path := pdf_path rev;
     bom_xlsx_path := bom_xlsx_path rev; bom_pdf_path := bom_pdf_path rev;
     eco_number := eco_number rev; eco_reason := eco_reason rev;
     eco_status := eco_status rev;
     validation_passed := passed;
     validation_warnings_json := warnings_json |}.

(** The UPDATE that writes a modified object back to its row. *)
Definition save (db : database) (rev : Revision) : database :=
  with_revisions db
    (map (fun r => if rev_id r =? rev_id rev then rev else r) (revisions db)).

(** [create]; [now] is the clock reading [_utcnow_str()] taken for the
    [generated_at] default. The second component is the store afterwards:
    a failed INSERT leaves it as it was. *)
Definition create (json_dumps : parameters -> string) (now : string)
    (db : database) (design_id : nat) (params : parameters)
    (description generated_by : string) : result Revision * database :=
  let revision_code := get_next_revision_code db design_id in
  let rev :=
    {| rev_id := next_rowid (revisions db); design_id := design_id;
       revision_code := revision_code; parameters_json := json_dumps params;
       description := Some description; generated_at := now;
       generated_by := generated_by;
       fcstd_path := None; step_path := None; dxf_path := None;
       pdf_path := None; bom_xlsx_path := None; bom_pdf_path := None;
       eco_number := None; eco_reason := None; eco_status := "draft";
       validation_passed := 0%Z; validation_warnings_json := None |} in
  match flush_insert db rev with
  | Ok db' => (Ok rev, db')
  | Raise e => (Raise e, db)
  end.

Definition update_eco_status (db : database) (revision_id : nat) (status : string)
    (eco_number eco_reason : option string) : result (option Revision) * database :=
  if negb (allowed_eco_status status) then (Raise (ValueError status), db)
  else
    match get_by_id db revision_id with
    | Some rev =>
        let number := match eco_number with Some n => Some n | None => Models.eco_number rev end in
        let reason := match eco_reason with Some n => Some n | None => Models.eco_reason rev end in
        let rev' := set_eco rev status number reason in
        (Ok (Some rev'), save db rev')
    | None => (Ok None, db)
    end.

(** [paths.get(key)]: the value under [key], [None] when the key is absent. *)
Definition paths_get (paths : gmap string (option string)) (key : string) : option string :=
  default None (paths !! key).

Definition update_output_paths (db : database) (revision_id : nat)
    (paths : gmap string (option string)) : option Revision * database :=
  match get_by_id db revision_id with
  | Some rev =>
      let rev' := set_paths rev (paths_get paths "fcstd") (paths_get paths "step")
                    (paths_get paths "dxf") (paths_get paths "pdf")
                    (paths_get paths "bom_xlsx") (paths_get paths "bom_pdf") in
      (Some rev', save db rev')
  | None => (None, db)
  end.

End RevisionRepository.

(** ** [config/catalog_loader.py]: [get_validation_rules] *)

Definition get_validation_rules (pieces : list piece_data) (code : string) : list rule :=
  match List.find (fun p => String.eqb (pd_code p) code) pieces with
  | Some piece => default [] (pd_validation_rules piece)
  | None => []
  end.

(** ** [core/piece_controller.py] *)

Module PieceController.

Record GenerationRequest : Type := {
  req_design_id : nat;
  req_parameters : parameters;
  req_description : string
}.

Record GenerationResponse : Type := {
  success : bool;
  revision_id : option nat;
  resp_revision_code : option string;
  output_dir : option (list string);
  resp_errors : list string;
  resp_warnings : list string;
  elapsed_seconds : float
}.

(** [cad/base_engine.py]: the outcome of a CAD generation run. A path is
    kept as its [str]. *)
Record GenerationResult : Type := {
  cad_success : bool;
  cad_fcstd_path : option string;
  cad_step_path : option string;
  cad_error_message : option string;
  cad_warnings : list string;
  cad_elapsed_seconds : float
}.

(** The keyword arguments of one [engine.generate] call. *)
Record engine_call : Type := {
  call_piece_code : string;
  call_parameters : parameters;
  call_output_dir : list string;
  call_revision_code : string
}.

(** Everything [generate] can change: the store, the calls made to the CAD
    engine and the directories created. *)
Record world : Type := {
  w_db : database;
  w_engine_calls : list engine_call;
  w_made_dirs : list (list string)
}.

(** [GenerationResponse(success=False, errors=errors, warnings=warnings)]. *)
Definition failure (errs warns : list string) : GenerationResponse :=
  {| success := false; revision_id := None; resp_revision_code := None;
     output_dir := None; resp_errors := errs; resp_warnings := warns;
     elapsed_seconds := 0%float |}.

(** [error_message or "Error desconocido en el motor CAD."]. *)
Definition error_message_or_default (m : option string) : string :=
  match m with
  | Some msg => if String.eqb msg "" then "Error desconocido en el motor CAD." else msg
  | None => "Error desconocido en el motor CAD."
  end.

Section Generate.

Variable C : Collaborators.

(** [generate]. The clock reading [now] and the behaviour [engine] of the
    CAD engine are the inputs of one invocation that come from outside.
    The second component is the world afterwards; when an exception
    escapes, the open session is rolled back. *)
Definition generate (now : string) (engine : engine_call -> GenerationResult)
    (request : GenerationRequest) (w : world) : result GenerationResponse * world :=
  (* Step 1: resolve design and piece type *)
  match DesignRepository.get_by_id (w_db w) (req_design_id request) with
  | None => (Ok (failure ["Diseño no encontrado."] []), w)
  | Some design =>
  match get_piece_type (w_db w) (d_piece_type_id design) with
  | None => (Ok (failure ["Tipo de pieza no encontrado."] []), w)
  | Some piece_type =>
  let piece_code := pt_code piece_type in
  let design_name := d_name design in
  (* Step 2: validate parameters *)
  let rules := get_validation_rules (catalog_pieces C) piece_code in
  match validate C (req_parameters request) rules with
  | Raise e => (Raise e, w)
  | Ok validation =>
  if negb (is_valid validation)
  then (Ok (failure (map message (errors validation))
                    (map message (warnings validation))), w)
  else
  let warning_msgs := map message (warnings validation) in
  (* Step 3: create the revision record *)
  match RevisionRepository.create (json_dumps C) now (w_db w)
          (req_design_id request) (req_parameters request)
          (req_description request) "Fede" with
  | (Raise e, _) => (Raise e, w)
  | (Ok rev0, db1) =>
  let rev := RevisionRepository.set_validation rev0 1%Z
               (match warning_msgs with
                | [] => None
                | _ => Some (json_dumps_list C warning_msgs)
                end) in
  let db2 := RevisionRepository.save db1 rev in
  let revision_id := rev_id rev in
  let revision_code := revision_code rev in
  (* Step 4: output directory and CAD engine *)
  let safe_name := re_sub_nonword C design_name in
  let output_dir := outputs_dir C ++ [piece_code; safe_name; revision_code] in
  let call := {| call_piece_code := piece_code;
                 call_parameters := req_parameters request;
                 call_output_dir := output_dir;
                 call_revision_code := revision_code |} in
  let cad_result := engine call in
  (* Step 5: persist output paths *)
  let db3 :=
    if cad_success cad_result
    then snd (RevisionRepository.update_output_paths db2 revision_id
                (<["fcstd" := cad_fcstd_path cad_result]>
                   (<["step" := cad_step_path cad_result]> ∅)))
    else db2 in
  let w' := {| w_db := db3;
               w_engine_calls := w_engine_calls w ++ [call];
               w_made_dirs := w_made_dirs w ++ [output_dir] |} in
  (* Step 6: the response *)
  let all_warnings := warning_msgs ++ cad_warnings cad_result in
  if cad_success cad_result
  then (Ok {| success := true; revision_id := Some revision_id;
              resp_revision_code := Some revision_code;
              output_dir := Some output_dir; resp_errors := [];
              resp_warnings := all_warnings;
              elapsed_seconds := cad_elapsed_seconds cad_result |}, w')
  else (Ok {| success := false; revision_id := Some revision_id;
              resp_revision_code := Some revision_code;
              output_dir := Some output_dir;
              resp_errors := [error_message_or_default (cad_error_message cad_result)];
              resp_warnings := all_warnings;
              elapsed_seconds := cad_elapsed_seconds cad_result |}, w')
  end end end end.

End Generate.

End PieceController.

(** ** The words of the specification, as definitions *)

Section ValidationWords.

Variable C : Collaborators.

(** The declared severity of a rule dict, ["error"] when the key is absent. *)
Definition declared_severity (r : rule) : string := default "error" (r !! "severity").

Definition severity_in_enum (r : rule) : bool :=
  String.eqb (declared_severity r) "error" || String.eqb (declared_severity r) "warning".

(** What one rule adds to the message list, as the specification words it. *)
Inductive Recorded (params : parameters) (r : rule) : list ValidationMessage -> Prop :=
  | Recorded_fault exc :
      py_eval C (default "True" (r !! "expression")) params = Raised exc ->
      Recorded params r
        [{| rule_id := default "UNKNOWN" (r !! "rule_id");
            severity := ERROR;
            message := "[Error evaluando regla: " +:+ exc +:+ "] "
                       +:+ default "Validation failed." (r !! "message") |}]
  | Recorded_falsy sev :
      py_eval C (default "True" (r !! "expression")) params = Passed false ->
      Severity_of (declared_severity r) = Ok sev ->
      Recorded params r
        [{| rule_id := default "UNKNOWN" (r !! "rule_id");
            severity := sev;
            message := default "Validation failed." (r !! "message") |}]
  | Recorded_truthy :
      py_eval C (default "True" (r !! "expression")) params = Passed true ->
      Recorded params r [].

End ValidationWords.

Section StoreWords.

Import RevisionRepository.

(** The timestamps do not decrease along the list. *)
Fixpoint nondecreasing_generated_at (l : list Revision) : bool :=
  match l with
  | r :: (x :: _) as l' =>
      String.leb (generated_at r) (generated_at x) && nondecreasing_generated_at l'
  | _ => true
  end.

(** The columns other than the three ECO columns. *)
Definition unchanged_outside_eco (old new : Revision) : Prop :=
  rev_id new = rev_id old /\ design_id new = design_id old /\
  revision_code new = revision_code old /\
  parameters_json new = parameters_json old /\
  description new = description old /\ generated_at new = generated_at old /\
  generated_by new = generated_by old /\
  fcstd_path new = fcstd_path old /\ step_path new = step_path old /\
  dxf_path new = dxf_path old /\ pdf_path new = pdf_path old /\
  bom_xlsx_path new = bom_xlsx_path old /\ bom_pdf_path new = bom_pdf_path old /\
  validation_passed new = validation_passed old /\
  validation_warnings_json new = validation_warnings_json old.

(** The columns other than the six output paths. *)
Definition unchanged_outside_paths (old new : Revision) : Prop :=
  rev_id new = rev_id old /\ design_id new = design_id old /\
  revision_code new = revision_code old /\
  parameters_json new = parameters_json old /\
  description new = description old /\ generated_at new = generated_at old /\
  generated_by new = generated_by old /\
  eco_number new = eco_number old /\ eco_reason new = eco_reason old /\
  eco_status new = eco_status old /\
  validation_passed new = validation_passed old /\
  validation_warnings_json new = validation_warnings_json old.

(** The six artifact keys of [paths] with the column each one sets. *)
Definition artifact_fields : list (string * (Revision -> option string)) :=
  [("fcstd", fcstd_path); ("step", step_path); ("dxf", dxf_path);
   ("pdf", pdf_path); ("bom_xlsx", bom_xlsx_path); ("bom_pdf", bom_pdf_path)].

(** The rest of the store is as before: the other tables, the set of
    rowids and every other revision. *)
Definition only_row_changed (db db' : database) (rid : nat) : Prop :=
  piece_types db' = piece_types db /\ designs db' = designs db /\
  map rev_id (revisions db') = map rev_id (revisions db) /\
  forall other, other <> rid -> get_by_id db' other = get_by_id db other.

End StoreWords.

Section PipelineWords.

Import RevisionRepository PieceController.

Variable C : Collaborators.

(** [json.dumps(warning_msgs) if warning_msgs else None]. *)
Definition warnings_json (warning_msgs : list string) : option string :=
  match warning_msgs with
  | [] => None
  | _ => Some (json_dumps_list C warning_msgs)
  end.

(** The call [generate] makes to the CAD engine for a revision code. *)
Definition engine_call_for (piece_type : PieceType) (design : Design)
    (request : GenerationRequest) (code : string) : engine_call :=
  {| call_piece_code := pt_code piece_type;
     call_parameters := req_parameters request;
     call_output_dir :=
       outputs_dir C ++ [pt_code piece_type; re_sub_nonword C (d_name design); code];
     call_revision_code := code |}.

(** The row left in the store once the engine has answered. *)
Definition reconciled (rev : Revision) (cad : GenerationResult) : Revision :=
  if cad_success cad
  then set_paths rev (cad_fcstd_path cad) (cad_step_path cad) None None None None
  else rev.

End PipelineWords.

(** ** Runs of the pipeline and the codes they assign *)

Module Runs.

Import RevisionRepository PieceController.

(** One invocation of [generate] with what it receives from outside. *)
Record invocation : Type := {
  inv_now : string;
  inv_engine : engine_call -> GenerationResult;
  inv_request : GenerationRequest
}.

(** Successive invocations; the outcomes are listed in order. *)
Fixpoint run (C : Collaborators) (calls : list invocation) (w : world)
    : list (result GenerationResponse) * world :=
  match calls with
  | [] => ([], w)
  | c :: rest =>
      let '(out, w1) := generate C (inv_now c) (inv_engine c) (inv_request c) w in
      let '(outs, w') := run C rest w1 in
      (out :: outs, w')
  end.

(** The revision code an invocation against design [d] was answered with,
    if it created a revision. *)
Definition assigned_code (d : nat) (c : invocation) (out : result GenerationResponse)
    : option string :=
  match out with
  | Ok resp => if req_design_id (inv_request c) =? d then resp_revision_code resp else None
  | Raise _ => None
  end.

Fixpoint assigned_codes (d : nat) (calls : list invocation)
    (outs : list (result GenerationResponse)) : list string :=
  match calls, outs with
  | c :: calls', out :: outs' =>
      option_list (assigned_code d c out) ++ assigned_codes d calls' outs'
  | _, _ => []
  end.

(** The codes of a design's revisions, in creation order. *)
Definition codes_of (w : world) (d : nat) : list string :=
  map revision_code (revisions_of (w_db w) d).

(** The codes are an initial segment of A, B, ..., Z, AA, ... without
    repetition. *)
Definition coded_in_sequence (codes : list string) : Prop :=
  codes = map nth_code (seq 1 (length codes)) /\ NoDup codes.

(** The request gets past steps 1 and 2: its design and piece type
    resolve and its parameters pass validation. *)
Definition passes_validation (C : Collaborators) (db : database)
    (request : GenerationRequest) : bool :=
  match DesignRepository.get_by_id db (req_design_id request) with
  | Some design =>
      match get_piece_type db (d_piece_type_id design) with
      | Some piece_type =>
          match validate C (req_parameters request)
                  (get_validation_rules (catalog_pieces C) (pt_code piece_type)) with
          | Ok validation => is_valid validation
          | Raise _ => false
          end
      | None => false
      end
  | None => false
  end.

(** The invocations against design [d] that get past validation. *)
Definition passing (C : Collaborators) (db : database) (d : nat)
    (calls : list invocation) : list invocation :=
  List.filter (fun c => (req_design_id (inv_request c) =? d) &&
                        passes_validation C db (inv_request c)) calls.

(** The clock never steps back from one invocation to a later one. *)
Fixpoint clock_nondecreasing (calls : list invocation) : Prop :=
  match calls with
  | [] => True
  | c :: rest =>
      Forall (fun c' => String.leb (inv_now c) (inv_now c') = true) rest /\
      clock_nondecreasing rest
  end.

(** The rows of design [d] carry timestamps in creation order, none later
    than the clock readings still to come. *)
Definition stamped_in_order (w : world) (d : nat) (rest : list invocation) : Prop :=
  nondecreasing_generated_at (revisions_of (w_db w) d) = true /\
  forall r c, r ∈ revisions_of (w_db w) d -> c ∈ rest ->
              String.leb (generated_at r) (inv_now c) = true.

End Runs.

(** ** More of [data/repositories.py], [data/models.py] and
    [core/piece_controller.py] *)

Module RevisionReads.

Import RevisionRepository PieceController.

(** [ORDER BY id DESC]: the rows from the largest rowid down. *)
Fixpoint insert_by_id_desc (r : Revision) (l : list Revision) : list Revision :=
  match l with
  | [] => [r]
  | x :: l' =>
      if rev_id x <=? rev_id r
      then r :: x :: l'
      else x :: insert_by_id_desc r l'
  end.

Definition order_by_id_desc (l : list Revision) : list Revision :=
  foldr insert_by_id_desc [] l.

(** [RevisionRepository.get_latest_for_design]: [.first()] of the rows of
    the design ordered by id, largest first. *)
Definition get_latest_for_design (db : database) (d : nat) : option Revision :=
  head (order_by_id_desc (revisions_of db d)).

(** [Design.latest_revision]: [self.revisions[-1] if self.revisions else
    None], where the [revisions] relationship is ordered by
    [generated_at]. *)
Definition latest_revision (db : database) (design : Design) : option Revision :=
  last (get_by_design db (d_id design)).


(** The rowids grow along the list. *)
Fixpoint increasing_rev_id (l : list Revision) : bool :=
  match l with
  | r :: (x :: _) as l' => (rev_id r <? rev_id x) && increasing_rev_id l'
  | _ => true
  end.


End RevisionReads.

(** ** [BOMRepository] *)

Module BOMRepository.

(** A row of [bom_items], as the session's object holds it: a column
    filled from the item dict has the dict's value as it is. *)
Record BOMItem : Type := {
  id : nat;
  revision_id : nat;
  item_number : nat;
  part_code : option value;
  description : value;
  quantity : value;
  unit : value;
  material : option value;
  standard : option value;
  unit_weight_kg : option value;
  observations : option value
}.

(** How [create_items] ends. *)
Inductive outcome : Type :=
  | Created (created : list BOMItem)
  | KeyError (key : string)
  | IntegrityError (constraint : string).

(** [order_by(BOMItem.item_number.asc())], equal numbers in insertion
    order. *)
Fixpoint insert_by_item_number (b : BOMItem) (l : list BOMItem) : list BOMItem :=
  match l with
  | [] => [b]
  | x :: l' =>
      if item_number b <=? item_number x
      then b :: x :: l'
      else x :: insert_by_item_number b l'
  end.

Definition get_by_revision (table : list BOMItem) (rid : nat) : list BOMItem :=
  foldr insert_by_item_number [] (List.filter (fun b => revision_id b =? rid) table).

(** [BOMItem(...)] for one entry of [enumerate(items, start=1)]; [None]
    stands for the [KeyError] of [item_data["description"]]. The rowid is
    given at the flush. *)
Definition make_item (rid idx : nat) (item_data : gmap string value) : option BOMItem :=
  match item_data !! "description" with
  | None => None
  | Some d =>
      Some {| id := 0; revision_id := rid; item_number := idx;
              description := d;
              quantity := default (VFloat 1%float) (item_data !! "quantity");
              unit := default (VStr "UN") (item_data !! "unit");
              part_code := item_data !! "part_code";
              material := item_data !! "material";
              standard := item_data !! "standard";
              unit_weight_kg := item_data !! "unit_weight_kg";
              observations := item_data !! "observations" |}
  end.

(** The loop over [enumerate(items, start=idx)]. *)
Fixpoint make_items (rid idx : nat) (items : list (gmap string value))
    : option (list BOMItem) :=
  match items with
  | [] => Some []
  | item_data :: rest =>
      match make_item rid idx item_data with
      | None => None
      | Some b =>
          match make_items rid (S idx) rest with
          | None => None
          | Some bs => Some (b :: bs)
          end
      end
  end.

Definition with_id (n : nat) (b : BOMItem) : BOMItem :=
  {| id := n; revision_id := revision_id b; item_number := item_number b;
     part_code := part_code b; description := description b;
     quantity := quantity b; unit := unit b; material := material b;
     standard := standard b; unit_weight_kg := unit_weight_kg b;
     observations := observations b |}.

(** The rowids of the INSERTs of one flush, from [n] on. *)
Fixpoint assign_ids (n : nat) (l : list BOMItem) : list BOMItem :=
  match l with
  | [] => []
  | b :: l' => with_id n b :: assign_ids (S n) l'
  end.

(** [uq_bom_item_number]: the pair [(revision_id, item_number)] of [b] is
    taken in [table]. *)
Definition number_taken (table : list BOMItem) (b : BOMItem) : bool :=
  existsb (fun x => (revision_id x =? revision_id b) &&
                    (item_number x =? item_number b)) table.

(** [create_items] on the store [db] with the BOM rows [table]: the new
    rows, and the BOM rows afterwards. A raised exception leaves them as
    they were. *)
Definition create_items (db : database) (table : list BOMItem) (rid : nat)
    (items : list (gmap string value)) : outcome * list BOMItem :=
  match make_items rid 1 items with
  | None => (KeyError "description", table)
  | Some [] => (Created [], table)
  | Some pending =>
      if negb (existsb (fun r => rev_id r =? rid) (revisions db))
      then (IntegrityError "FOREIGN KEY constraint failed", table)
      else if existsb (number_taken table) pending
      then (IntegrityError "uq_bom_item_number", table)
      else
        let created := assign_ids (S (max_list (map id table))) pending in
        (Created created, table ++ created)
  end.

End BOMRepository.

(** ** Words for the composition of updates *)

(** [b] when it is not [None], else [a]: how [update_eco_status] treats
    its optional number and reason against the stored ones. *)
Definition or_else (b a : option string) : option string :=
  match b with Some x => Some x | None => a end.

(** The columns the allocator and the reads by design go by. *)
Definition same_key (r r' : Revision) : Prop :=
  design_id r = design_id r' /\ revision_code r = revision_code r' /\
  generated_at r = generated_at r'.

(** The constraints the schema puts on the [revisions] table
    ([data/models.py]): the primary key, the uniqueness of
    [(design_id, revision_code)], the check on [eco_status] and the foreign
    key to [designs]. *)
Definition constraints_hold (db : database) : Prop :=
  NoDup (map rev_id (revisions db)) /\
  NoDup (map (fun r => (design_id r, revision_code r)) (revisions db)) /\
  Forall (fun r =>
            RevisionRepository.allowed_eco_status (eco_status r) = true /\
            existsb (fun d => d_id d =? design_id r) (designs db) = true)
         (revisions db).

(** ** A concrete setting, for running the model *)

Module Sample.

Import PieceController.

(** The fragment of [eval] for an expression that is a single name: the
    truth value of the parameter, or a [NameError]. *)
Definition eval_name (expression : string) (params : parameters) : eval_outcome :=
  match params !! expression with
  | Some (VBool b) => Passed b
  | Some (VInt n) => Passed (negb (n =? 0)%Z)
  | Some (VFloat x) => Passed (negb (x =? 0)%float)
  | Some (VStr s) => Passed (negb (String.eqb s ""))
  | None => Raised ("name '" +:+ expression +:+ "' is not defined")
  end.

Definition rule_thick : rule :=
  {[ "rule_id" := "VR-BP-01"; "expression" := "espesor_ok";
     "severity" := "error"; "message" := "Espesor minimo 4 mm." ]}.

Definition rule_ratio : rule :=
  {[ "rule_id" := "VR-BP-02"; "expression" := "relacion_ok";
     "severity" := "warning"; "message" := "Relacion largo/ancho supera 10:1." ]}.

Definition rule_bad_severity : rule :=
  {[ "rule_id" := "VR-X"; "expression" := "espesor_ok";
     "severity" := "fatal"; "message" := "x" ]}.

Definition collaborators : Collaborators :=
  {| py_eval := eval_name;
     json_dumps := fun _ => "{}";
     json_dumps_list := fun l => "[" +:+ String.concat ", " l +:+ "]";
     catalog_pieces :=
       [{| pd_code := "base_plate";
           pd_validation_rules := Some [rule_thick; rule_ratio] |}];
     outputs_dir := ["outputs"];
     re_sub_nonword := fun name => name |}.

Definition valid_params : parameters :=
  {[ "espesor_ok" := VBool true; "relacion_ok" := VBool true ]}.
Definition warned_params : parameters :=
  {[ "espesor_ok" := VBool true; "relacion_ok" := VBool false ]}.
Definition invalid_params : parameters :=
  {[ "espesor_ok" := VBool false; "relacion_ok" := VBool false ]}.

Definition empty_db : database :=
  {| piece_types := [{| pt_id := 1; pt_code := "base_plate" |}];
     designs := [{| d_id := 1; d_piece_type_id := 1; d_name := "Placa_Test" |}];
     revisions := [] |}.

Definition fresh_world : world :=
  {| w_db := empty_db; w_engine_calls := []; w_made_dirs := [] |}.

Definition request (params : parameters) : GenerationRequest :=
  {| req_design_id := 1; req_parameters := params; req_description := "" |}.

Definition failing_engine (_ : engine_call) : GenerationResult :=
  {| cad_success := false; cad_fcstd_path := None; cad_step_path := None;
     cad_error_message := Some "Fallo simulado del motor CAD.";
     cad_warnings := []; cad_elapsed_seconds := 0%float |}.

Definition working_engine (c : engine_call) : GenerationResult :=
  {| cad_success := true;
     cad_fcstd_path := Some ("base_plate_" +:+ call_revision_code c +:+ ".FCStd");
     cad_step_path := Some ("base_plate_" +:+ call_revision_code c +:+ ".step");
     cad_error_message := None;
     cad_warnings := []; cad_elapsed_seconds := 0%float |}.

End Sample.

Module SampleRun.

Import RevisionRepository PieceController Runs.

Definition design1 : Design := {| d_id := 1; d_piece_type_id := 1; d_name := "Placa_Test" |}.
Definition piece1 : PieceType := {| pt_id := 1; pt_code := "base_plate" |}.

Definition call (now : string) (engine : engine_call -> GenerationResult)
    (params : parameters) : invocation :=
  {| inv_now := now; inv_engine := engine; inv_request := Sample.request params |}.

(** Three valid requests, the second with a failing engine, and one invalid
    request in between. *)
Definition calls : list invocation :=
  [call "2026-01-01T00:00:01+00:00" Sample.working_engine Sample.valid_params;
   call "2026-01-01T00:00:02+00:00" Sample.failing_engine Sample.warned_params;
   call "2026-01-01T00:00:03+00:00" Sample.working_engine Sample.invalid_params;
   call "2026-01-01T00:00:04+00:00" Sample.working_engine Sample.valid_params].

(** The same requests when the second clock reading lies before the
    first. *)
Definition calls_clock_back : list invocation :=
  [call "2026-01-01T00:00:02+00:00" Sample.working_engine Sample.valid_params;
   call "2026-01-01T00:00:01+00:00" Sample.failing_engine Sample.warned_params;
   call "2026-01-01T00:00:03+00:00" Sample.working_engine Sample.valid_params].

Definition invalid_validation : ValidationResult :=
  {| is_valid := false;
     messages := [{| rule_id := "VR-BP-01"; severity := ERROR;
                     message := "Espesor minimo 4 mm." |};
                  {| rule_id := "VR-BP-02"; severity := WARNING;
                     message := "Relacion largo/ancho supera 10:1." |}] |}.

(** The world after one successful generation. *)
Definition world_after_one : world :=
  snd (generate Sample.collaborators "2026-01-01T00:00:01+00:00"
         Sample.working_engine (Sample.request Sample.valid_params) Sample.fresh_world).

Definition failing_call : engine_call :=
  {| call_piece_code := "base_plate"; call_parameters := Sample.warned_params;
     call_output_dir := ["outputs"; "base_plate"; "Placa_Test"; "B"];
     call_revision_code := "B" |}.

(** The rows left by the first two of [calls], stamped [at_A] and [at_B]. *)
Definition row_A (at_A : string) : Revision :=
  {| rev_id := 1; design_id := 1; revision_code := "A";
     parameters_json := "{}"; description := Some "";
     generated_at := at_A; generated_by := "Fede";
     fcstd_path := Some "base_plate_A.FCStd";
     step_path := Some "base_plate_A.step";
     dxf_path := None; pdf_path := None;
     bom_xlsx_path := None; bom_pdf_path := None;
     eco_number := None; eco_reason := None; eco_status := "draft";
     validation_passed := 1%Z; validation_warnings_json := None |}.

Definition row_B (at_B : string) : Revision :=
  {| rev_id := 2; design_id := 1; revision_code := "B";
     parameters_json := "{}"; description := Some "";
     generated_at := at_B; generated_by := "Fede";
     fcstd_path := None; step_path := None;
     dxf_path := None; pdf_path := None;
     bom_xlsx_path := None; bom_pdf_path := None;
     eco_number := None; eco_reason := None; eco_status := "draft";
     validation_passed := 1%Z;
     validation_warnings_json := Some "[Relacion largo/ancho supera 10:1.]" |}.

Definition db_two (at_A at_B : string) : database :=
  with_revisions Sample.empty_db [row_A at_A; row_B at_B].

(** A store in which the clock went back between the first two
    generations: the row coded B carries the earlier timestamp. *)
Definition world_clock_back : world :=
  {| w_db := db_two "2026-01-01T00:00:02+00:00" "2026-01-01T00:00:01+00:00";
     w_engine_calls := []; w_made_dirs := [] |}.

(** A rule dict without a severity. *)
Definition rule_no_severity : rule :=
  {[ "rule_id" := "VR-BP-03"; "expression" := "relacion_ok";
     "message" := "Relacion fuera de rango." ]}.



(** The sample catalog with a rule of unknown severity for the piece. *)
Definition collaborators_fatal : Collaborators :=
  {| py_eval := Sample.eval_name;
     json_dumps := fun _ => "{}";
     json_dumps_list := fun l => "[" +:+ String.concat ", " l +:+ "]";
     catalog_pieces :=
       [{| pd_code := "base_plate";
           pd_validation_rules := Some [Sample.rule_thick; Sample.rule_bad_severity] |}];
     outputs_dir := ["outputs"];
     re_sub_nonword := fun name => name |}.

(** Parameters that lack the name the first sample rule reads. *)
Definition params_without_thickness : parameters :=
  {[ "relacion_ok" := VBool true ]}.

(** Two BOM entries, the second with the defaults. *)
Definition bom_entries : list (gmap string value) :=
  [ {[ "description" := VStr "Placa base"; "quantity" := VFloat 1%float;
       "unit" := VStr "UN"; "material" := VStr "ASTM A36" ]};
    {[ "description" := VStr "Bulon M12" ]} ].


End SampleRun.

(** * Proofs *)

Example increment_examples :
  _increment_revision_code "A" = "B" /\
  _increment_revision_code "Y" = "Z" /\
  _increment_revision_code "Z" = "AA" /\
  _increment_revision_code "AA" = "AB" /\
  _increment_revision_code "AZ" = "BA" /\
  _increment_revision_code "ZZ" = "AAA" /\
  _increment_revision_code "a" = "B" /\
  _increment_revision_code "" = "A".
Proof. vm_compute. repeat split. Qed.

Example nth_code_examples :
  map nth_code [1; 2; 26; 27; 28; 52; 53; 702; 703] =
  ["A"; "B"; "Z"; "AA"; "AB"; "AZ"; "BA"; "ZZ"; "AAA"].
Proof. vm_compute. reflexivity. Qed.

(** ** Properties of the increment *)

Section IncrementFacts.

Lemma increment_loop_app (n : nat) (l t : list ascii) :
  n <= length l ->
  increment_loop n (l ++ t) =
  (fst (increment_loop n l) ++ t, snd (increment_loop n l)).
Proof.
  revert l. induction n as [|idx IH]; intros l Hn; simpl; [done|].
  destruct (lookup_lt_is_Some_2 l idx) as [c Hc]; [lia|].
  rewrite lookup_app_l by lia. rewrite Hc.
  destruct (Ascii.eqb c "Z").
  - rewrite insert_app_l by lia. apply IH. rewrite length_insert. lia.
  - simpl. rewrite insert_app_l by lia. done.
Qed.

Lemma incr_chars_nil : incr_chars [] = ["A"%char].
Proof. reflexivity. Qed.

Lemma incr_chars_snoc_Z (l : list ascii) :
  incr_chars (l ++ ["Z"%char]) = incr_chars l ++ ["A"%char].
Proof.
  unfold incr_chars. rewrite length_app, Nat.add_comm. simpl.
  rewrite list_lookup_middle by done. simpl.
  replace (<[length l := "A"%char]> (l ++ ["Z"%char])) with (l ++ ["A"%char]).
  2:{ rewrite insert_app_r_alt by lia. by rewrite Nat.sub_diag. }
  rewrite increment_loop_app by lia.
  destruct (increment_loop (length l) l) as [l' [|]]; done.
Qed.

Lemma incr_chars_snoc (l : list ascii) (c : ascii) :
  c <> "Z"%char ->
  incr_chars (l ++ [c]) = l ++ [chr (ord c + 1)].
Proof.
  intros Hc. unfold incr_chars. rewrite length_app, Nat.add_comm. simpl.
  rewrite list_lookup_middle by done.
  destruct (Ascii.eqb_spec c "Z") as [->|_]; [done|].
  rewrite insert_app_r_alt by lia. by rewrite Nat.sub_diag.
Qed.

Lemma increment_as_chars (code : string) :
  _increment_revision_code code =
  string_of_list_ascii (incr_chars (map upper_char (list_ascii_of_string code))).
Proof.
  unfold _increment_revision_code, upper, incr_chars.
  rewrite list_ascii_of_string_of_list_ascii.
  by destruct (increment_loop _ _) as [l' [|]].
Qed.

End IncrementFacts.

(** ** The code sequence and the increment agree *)

Section CodeSequence.

Lemma code_digits_S (fuel m : nat) :
  code_digits (S fuel) (S m) = code_digits fuel (m / 26) ++ [letter (m mod 26)].
Proof. reflexivity. Qed.

Lemma div26_le (m : nat) : m / 26 <= m.
Proof. apply Nat.Div0.div_le_upper_bound. lia. Qed.

Lemma code_digits_fuel (f g n : nat) :
  n <= f -> n <= g -> code_digits f n = code_digits g n.
Proof.
  revert g n. induction f as [|f IH]; intros g n Hf Hg.
  - assert (n = 0) as -> by lia. by destruct g.
  - destruct n as [|m]; [by destruct g|].
    destruct g as [|g]; [lia|]. rewrite !code_digits_S. f_equal.
    pose proof (div26_le m). apply IH; lia.
Qed.

Lemma code_digits_step (m : nat) :
  code_digits (S m) (S m) =
  code_digits (m / 26) (m / 26) ++ [letter (m mod 26)].
Proof.
  rewrite code_digits_S. f_equal.
  pose proof (div26_le m). apply code_digits_fuel; lia.
Qed.

Lemma ord_letter (k : nat) : k < 26 -> ord (letter k) = 65 + k.
Proof. intros Hk. unfold ord, letter, chr. apply nat_ascii_embedding. lia. Qed.

Lemma letter_is_upper (k : nat) : k < 26 -> is_upper_letter (letter k) = true.
Proof.
  intros Hk. unfold is_upper_letter. rewrite ord_letter by done.
  apply andb_true_intro; split; apply Nat.leb_le; lia.
Qed.

Lemma upper_char_upper (c : ascii) : is_upper_letter c = true -> upper_char c = c.
Proof.
  unfold is_upper_letter, upper_char. intros [_ H]%andb_prop.
  apply Nat.leb_le in H.
  destruct (97 <=? ord c) eqn:E; [apply Nat.leb_le in E; lia | done].
Qed.

Lemma code_digits_upper (f n : nat) :
  forallb is_upper_letter (code_digits f n) = true.
Proof.
  revert n. induction f as [|f IH]; intros [|m]; try done.
  rewrite code_digits_S, forallb_app, IH. cbn [forallb andb].
  rewrite letter_is_upper; [done|]. apply Nat.mod_upper_bound. lia.
Qed.

Lemma map_upper_char_id (l : list ascii) :
  forallb is_upper_letter l = true -> map upper_char l = l.
Proof.
  induction l as [|c l IH]; simpl; [done|].
  intros [Hc Hl]%andb_prop. by rewrite upper_char_upper, IH.
Qed.

Lemma letter_25 : letter 25 = "Z"%char.
Proof. reflexivity. Qed.

Lemma letter_ne_Z (r : nat) : r < 25 -> letter r <> "Z"%char.
Proof.
  intros Hr E. assert (ord (letter r) = 90) as H by (by rewrite E).
  rewrite ord_letter in H; lia.
Qed.

Lemma incr_chars_code_digits (n : nat) :
  incr_chars (code_digits n n) = code_digits (S n) (S n).
Proof.
  induction (lt_wf n) as [n _ IH]. destruct n as [|m]; [done|].
  rewrite (code_digits_step (S m)), (code_digits_step m).
  pose proof (Nat.div_mod_eq m 26) as Hm.
  pose proof (Nat.mod_upper_bound m 26 ltac:(lia)) as Hr.
  pose proof (div26_le m) as Hq.
  set (q := m / 26) in *. set (r := m mod 26) in *.
  destruct (decide (r = 25)) as [Er|Er].
  - assert (S m / 26 = S q) as -> by (symmetry; apply (Nat.div_unique _ 26 _ 0); lia).
    assert (S m mod 26 = 0) as -> by (symmetry; apply (Nat.mod_unique _ 26 (S q)); lia).
    rewrite Er, letter_25, incr_chars_snoc_Z, IH by lia. done.
  - assert (S m / 26 = q) as -> by (symmetry; apply (Nat.div_unique _ 26 _ (S r)); lia).
    assert (S m mod 26 = S r) as -> by (symmetry; apply (Nat.mod_unique _ 26 q); lia).
    rewrite incr_chars_snoc by (apply letter_ne_Z; lia).
    rewrite ord_letter by lia. unfold letter. do 3 f_equal. lia.
Qed.

(** The successor of term [n] of the sequence is term [n + 1]. *)
Lemma increment_nth_code (n : nat) :
  _increment_revision_code (nth_code n) = nth_code (S n).
Proof.
  rewrite increment_as_chars. unfold nth_code.
  rewrite list_ascii_of_string_of_list_ascii.
  rewrite map_upper_char_id by apply code_digits_upper.
  by rewrite incr_chars_code_digits.
Qed.

End CodeSequence.

(** ** Facts about the validation engine *)

Section ValidationFacts.

Variable C : Collaborators.

Lemma Severity_of_in_enum (r : rule) :
  severity_in_enum r = true -> exists sev, Severity_of (declared_severity r) = Ok sev.
Proof.
  unfold severity_in_enum, Severity_of. intros H.
  destruct (String.eqb (declared_severity r) "error"); [by eexists|].
  destruct (String.eqb (declared_severity r) "warning"); [by eexists|done].
Qed.

Lemma Severity_of_not_in_enum (r : rule) :
  severity_in_enum r = false ->
  Severity_of (declared_severity r) = Raise (ValueError (declared_severity r)).
Proof.
  unfold severity_in_enum, Severity_of. intros H.
  destruct (String.eqb (declared_severity r) "error"); [done|].
  by destruct (String.eqb (declared_severity r) "warning").
Qed.

Lemma validate_rule_in_enum (params : parameters) (msgs : list ValidationMessage) (r : rule) :
  severity_in_enum r = true ->
  exists added, validate_rule C params msgs r = Ok (msgs ++ added) /\ Recorded C params r added.
Proof.
  intros [sev Hsev]%Severity_of_in_enum. unfold validate_rule.
  fold (declared_severity r). rewrite Hsev. simpl.
  destruct (py_eval C _ params) as [[|]|exc] eqn:E; simpl.
  - exists []. rewrite app_nil_r. split; [done|]. by apply Recorded_truthy.
  - eexists. split; [done|]. by apply Recorded_falsy.
  - eexists. split; [done|]. by apply Recorded_fault.
Qed.

Lemma validate_rule_not_in_enum (params : parameters) (msgs : list ValidationMessage) (r : rule) :
  severity_in_enum r = false ->
  validate_rule C params msgs r = Raise (ValueError (declared_severity r)).
Proof.
  intros H. unfold validate_rule. fold (declared_severity r).
  by rewrite (Severity_of_not_in_enum r H).
Qed.

Lemma validate_loop_in_enum (params : parameters) (rules : list rule) :
  forallb severity_in_enum rules = true ->
  forall msgs, exists per_rule,
    validate_loop C params rules msgs = Ok (msgs ++ concat per_rule) /\
    Forall2 (Recorded C params) rules per_rule.
Proof.
  induction rules as [|r rules IH]; simpl; intros Hall msgs.
  - exists []. simpl. by rewrite app_nil_r.
  - apply andb_prop in Hall as [Hr Hall].
    destruct (validate_rule_in_enum params msgs r Hr) as (added & -> & Hadd).
    simpl. destruct (IH Hall (msgs ++ added)) as (per_rule & -> & Hper).
    exists (added :: per_rule). simpl. rewrite app_assoc. split; [done|].
    by constructor.
Qed.

Lemma validate_loop_raises (params : parameters) (rules : list rule) :
  forallb severity_in_enum rules = false ->
  forall msgs, exists r,
    r ∈ rules /\ severity_in_enum r = false /\
    validate_loop C params rules msgs = Raise (ValueError (declared_severity r)).
Proof.
  induction rules as [|r rules IH]; simpl; intros Hall msgs; [done|].
  destruct (severity_in_enum r) eqn:Hr.
  - destruct (validate_rule_in_enum params msgs r Hr) as (added & -> & _).
    simpl. destruct (IH Hall (msgs ++ added)) as (r' & Hin & Hbad & ->).
    exists r'. split; [by right|done].
  - exists r. rewrite (validate_rule_not_in_enum params msgs r Hr).
    split; [by left|done].
Qed.

Lemma validate_returns_iff (params : parameters) (rules : list rule) :
  returns (validate C params rules) = forallb severity_in_enum rules.
Proof.
  unfold validate. destruct (forallb severity_in_enum rules) eqn:Hall.
  - destruct (validate_loop_in_enum params rules Hall []) as (per & -> & _). done.
  - destruct (validate_loop_raises params rules Hall []) as (r & _ & _ & ->). done.
Qed.

(** [is_valid] is decided by the absence of error messages. *)
Lemma validate_is_valid (params : parameters) (rules : list rule) (res : ValidationResult) :
  validate C params rules = Ok res ->
  is_valid res = negb (existsb is_error (messages res)).
Proof.
  unfold validate. destruct (validate_loop C params rules []) as [msgs|e]; simpl; [|done].
  by intros [= <-].
Qed.

Lemma existsb_is_error_filter (msgs : list ValidationMessage) :
  negb (existsb is_error msgs) = (length (List.filter is_error msgs) =? 0).
Proof.
  induction msgs as [|m msgs IH]; simpl; [done|].
  destruct (is_error m); simpl; done.
Qed.

End ValidationFacts.

(** ** Facts about the revision store *)

Section StoreFacts.

Import RevisionRepository.

Lemma insert_by_generated_at_perm (r : Revision) (l : list Revision) :
  insert_by_generated_at r l ≡ₚ r :: l.
Proof.
  induction l as [|x l IH]; simpl; [done|].
  destruct (String.leb _ _); [done|]. rewrite IH. apply Permutation_swap.
Qed.

Lemma order_by_generated_at_perm (l : list Revision) :
  order_by_generated_at l ≡ₚ l.
Proof.
  induction l as [|r l IH]; simpl; [done|].
  rewrite insert_by_generated_at_perm. by rewrite IH.
Qed.

Lemma order_by_generated_at_sorted (l : list Revision) :
  nondecreasing_generated_at l = true -> order_by_generated_at l = l.
Proof.
  induction l as [|r l IH]; [done|].
  intros H. change (order_by_generated_at (r :: l))
    with (insert_by_generated_at r (order_by_generated_at l)).
  destruct l as [|x l]; [done|].
  simpl in H. apply andb_prop in H as [Hrx Hl].
  rewrite (IH Hl). simpl. by rewrite Hrx.
Qed.

(** The allocator reads the code of some existing row of the design. *)
Lemma get_next_revision_code_cases (db : database) (d : nat) :
  (revisions_of db d = [] /\ get_next_revision_code db d = "A") \/
  (exists r, r ∈ revisions_of db d /\
             get_next_revision_code db d = _increment_revision_code (revision_code r)).
Proof.
  unfold get_next_revision_code, get_by_design.
  pose proof (order_by_generated_at_perm (revisions_of db d)) as Hperm.
  destruct (last (order_by_generated_at (revisions_of db d))) as [r|] eqn:Hlast.
  - right. exists r. split; [|done].
    apply last_Some in Hlast as [l' Hl']. rewrite <- Hperm, Hl'.
    apply elem_of_app. right. by apply list_elem_of_singleton.
  - left. apply last_None in Hlast. rewrite Hlast in Hperm.
    split; [|done]. by apply Permutation_nil in Hperm.
Qed.

Lemma revisions_of_app (db : database) (l : list Revision) (rev : Revision) (d : nat) :
  revisions_of (with_revisions db (l ++ [rev])) d =
  revisions_of (with_revisions db l) d ++ (if design_id rev =? d then [rev] else []).
Proof.
  unfold revisions_of. simpl. rewrite List.filter_app. simpl.
  by destruct (design_id rev =? d).
Qed.

Lemma with_revisions_id (db : database) : with_revisions db (revisions db) = db.
Proof. by destruct db. Qed.

Lemma next_rowid_fresh (l : list Revision) (r : Revision) :
  r ∈ l -> rev_id r < next_rowid l.
Proof.
  intros Hr. unfold next_rowid.
  assert (rev_id r ≤ max_list (map rev_id l)); [|lia].
  apply max_list_elem_of_le. apply list_elem_of_fmap. by exists r.
Qed.

(** Writing back an object whose rowid is above all the others replaces
    the last row only. *)
Lemma save_last (db : database) (l : list Revision) (old new : Revision) :
  (forall r, r ∈ l -> rev_id r < rev_id new) ->
  rev_id old = rev_id new ->
  save (with_revisions db (l ++ [old])) new = with_revisions db (l ++ [new]).
Proof.
  intros Hfresh Hid. unfold save, with_revisions. simpl. f_equal.
  rewrite map_app. simpl. rewrite Hid, Nat.eqb_refl. f_equal.
  induction l as [|x l IH]; simpl; [done|].
  rewrite IH by (intros r Hr; apply Hfresh; by right).
  destruct (rev_id x =? rev_id new) eqn:E; [|done].
  apply Nat.eqb_eq in E. specialize (Hfresh x ltac:(by left)). lia.
Qed.

Lemma get_by_id_last (db : database) (l : list Revision) (rev : Revision) :
  (forall r, r ∈ l -> rev_id r < rev_id rev) ->
  get_by_id (with_revisions db (l ++ [rev])) (rev_id rev) = Some rev.
Proof.
  intros Hfresh. unfold get_by_id. simpl.
  induction l as [|x l IH]; simpl.
  - by rewrite Nat.eqb_refl.
  - destruct (rev_id x =? rev_id rev) eqn:E.
    + apply Nat.eqb_eq in E. specialize (Hfresh x ltac:(by left)). lia.
    + apply IH. intros r Hr. apply Hfresh. by right.
Qed.

(** What a successful [create] yields. *)
Lemma create_ok (dumps : parameters -> string) (now : string) (db : database)
    (d : nat) (params : parameters) (desc by_ : string) (rev : Revision) (db' : database) :
  create dumps now db d params desc by_ = (Ok rev, db') ->
  db' = with_revisions db (revisions db ++ [rev]) /\
  rev = {| rev_id := next_rowid (revisions db); design_id := d;
           revision_code := get_next_revision_code db d;
           parameters_json := dumps params;
           description := Some desc; generated_at := now; generated_by := by_;
           fcstd_path := None; step_path := None; dxf_path := None;
           pdf_path := None; bom_xlsx_path := None; bom_pdf_path := None;
           eco_number := None; eco_reason := None; eco_status := "draft";
           validation_passed := 0%Z; validation_warnings_json := None |} /\
  (forall r, r ∈ revisions_of db d -> revision_code r <> revision_code rev).
Proof.
  unfold create, flush_insert. simpl.
  destruct (negb (existsb _ (designs db))); [done|].
  destruct (existsb _ (revisions db)) eqn:Hdup; [done|].
  simpl. intros [= <- <-]. split; [done|]. split; [done|].
  intros r Hr Hcode. simpl in Hcode.
  apply not_true_iff_false in Hdup. apply Hdup.
  apply existsb_exists. exists r.
  unfold revisions_of in Hr. apply list_elem_of_In, filter_In in Hr as [Hin Hd].
  split; [done|]. rewrite Hd. simpl. by apply String.eqb_eq.
Qed.

Lemma create_raise (dumps : parameters -> string) (now : string) (db : database)
    (d : nat) (params : parameters) (desc by_ : string) (e : exn) (db' : database) :
  create dumps now db d params desc by_ = (Raise e, db') -> db' = db.
Proof.
  unfold create. destruct (flush_insert db _); [done|]. by intros [= _ <-].
Qed.

End StoreFacts.

(** ** Facts about the generation pipeline *)

Section GenerateFacts.

Import RevisionRepository PieceController.

Variable C : Collaborators.

Lemma paths_of_result (a b : option string) :
  let paths : gmap string (option string) := <["fcstd" := a]> (<["step" := b]> ∅) in
  paths_get paths "fcstd" = a /\ paths_get paths "step" = b /\
  paths_get paths "dxf" = None /\ paths_get paths "pdf" = None /\
  paths_get paths "bom_xlsx" = None /\ paths_get paths "bom_pdf" = None.
Proof.
  unfold paths_get. repeat split.
Qed.

(** The pipeline from step 3 on, once the design resolved, the parameters
    passed validation and the INSERT went through. *)
Lemma generate_created (now : string) (engine : engine_call -> GenerationResult)
    (request : GenerationRequest) (w : world)
    (design : Design) (piece_type : PieceType) (validation : ValidationResult)
    (rev0 : Revision) (db1 : database) :
  DesignRepository.get_by_id (w_db w) (req_design_id request) = Some design ->
  get_piece_type (w_db w) (d_piece_type_id design) = Some piece_type ->
  validate C (req_parameters request)
    (get_validation_rules (catalog_pieces C) (pt_code piece_type)) = Ok validation ->
  is_valid validation = true ->
  create (json_dumps C) now (w_db w) (req_design_id request)
    (req_parameters request) (req_description request) "Fede" = (Ok rev0, db1) ->
  let warning_msgs := map message (warnings validation) in
  let rev := set_validation rev0 1%Z (warnings_json C warning_msgs) in
  let call := engine_call_for C piece_type design request (revision_code rev0) in
  let cad := engine call in
  generate C now engine request w =
  (Ok {| success := cad_success cad;
         revision_id := Some (rev_id rev0);
         resp_revision_code := Some (revision_code rev0);
         output_dir := Some (call_output_dir call);
         resp_errors :=
           if cad_success cad then []
           else [error_message_or_default (cad_error_message cad)];
         resp_warnings := warning_msgs ++ cad_warnings cad;
         elapsed_seconds := cad_elapsed_seconds cad |},
   {| w_db := with_revisions (w_db w) (revisions (w_db w) ++ [reconciled rev cad]);
      w_engine_calls := w_engine_calls w ++ [call];
      w_made_dirs := w_made_dirs w ++ [call_output_dir call] |}).
Proof.
  intros Hd Hp Hv Hvalid Hc warning_msgs rev call cad.
  unfold generate. rewrite Hd, Hp, Hv, Hvalid, Hc. simpl.
  apply create_ok in Hc as (-> & Hrev0 & _).
  assert (rev_id rev0 = next_rowid (revisions (w_db w))) as Hid by (by rewrite Hrev0).
  assert (forall r, r ∈ revisions (w_db w) -> rev_id r < rev_id rev) as Hfresh.
  { intros r Hr. simpl. rewrite Hid. by apply next_rowid_fresh. }
  fold warning_msgs. fold (warnings_json C warning_msgs). fold rev.
  fold (engine_call_for C piece_type design request (revision_code rev0)).
  fold call. fold cad.
  rewrite (save_last (w_db w) (revisions (w_db w)) rev0 rev Hfresh eq_refl).
  unfold reconciled. destruct (cad_success cad) eqn:Hs; [|done].
  unfold update_output_paths.
  pose proof (get_by_id_last (w_db w) (revisions (w_db w)) rev Hfresh) as Hget.
  change (rev_id rev) with (rev_id rev0) in Hget. rewrite Hget.
  destruct (paths_of_result (cad_fcstd_path cad) (cad_step_path cad))
    as (-> & -> & -> & -> & -> & ->).
  simpl snd.
  rewrite (save_last (w_db w) (revisions (w_db w)) rev
             (set_paths rev (cad_fcstd_path cad) (cad_step_path cad) None None None None)
             Hfresh eq_refl).
  done.
Qed.

(** Every invocation either leaves the world as it was, without a revision
    in its response, or goes through the INSERT. *)
Lemma generate_cases (now : string) (engine : engine_call -> GenerationResult)
    (request : GenerationRequest) (w : world) :
  (snd (generate C now engine request w) = w /\
   forall resp, fst (generate C now engine request w) = Ok resp ->
                success resp = false /\ revision_id resp = None /\
                resp_revision_code resp = None) \/
  (exists design piece_type validation rev0 db1,
     DesignRepository.get_by_id (w_db w) (req_design_id request) = Some design /\
     get_piece_type (w_db w) (d_piece_type_id design) = Some piece_type /\
     validate C (req_parameters request)
       (get_validation_rules (catalog_pieces C) (pt_code piece_type)) = Ok validation /\
     is_valid validation = true /\
     create (json_dumps C) now (w_db w) (req_design_id request)
       (req_parameters request) (req_description request) "Fede" = (Ok rev0, db1)).
Proof.
  destruct (DesignRepository.get_by_id (w_db w) (req_design_id request))
    as [design|] eqn:Hd.
  2:{ left. unfold generate. rewrite Hd. simpl. split; [done|]. by intros resp [= <-]. }
  destruct (get_piece_type (w_db w) (d_piece_type_id design)) as [piece_type|] eqn:Hp.
  2:{ left. unfold generate. rewrite Hd, Hp. simpl. split; [done|]. by intros resp [= <-]. }
  destruct (validate C (req_parameters request)
              (get_validation_rules (catalog_pieces C) (pt_code piece_type)))
    as [validation|e] eqn:Hv.
  2:{ left. unfold generate. rewrite Hd, Hp, Hv. simpl. done. }
  destruct (is_valid validation) eqn:Hvalid.
  2:{ left. unfold generate. rewrite Hd, Hp, Hv, Hvalid. simpl.
      split; [done|]. by intros resp [= <-]. }
  destruct (create (json_dumps C) now (w_db w) (req_design_id request)
              (req_parameters request) (req_description request) "Fede")
    as [[rev0|e] db1] eqn:Hc.
  - right. by exists design, piece_type, validation, rev0, db1.
  - left. unfold generate. rewrite Hd, Hp, Hv, Hvalid, Hc. simpl. done.
Qed.

End GenerateFacts.

Section RunFacts.

Import RevisionRepository PieceController Runs.

Variable C : Collaborators.

Lemma reconciled_key (rev0 : Revision) (wj : option string) (cad : GenerationResult) :
  design_id (reconciled (set_validation rev0 1%Z wj) cad) = design_id rev0 /\
  revision_code (reconciled (set_validation rev0 1%Z wj) cad) = revision_code rev0.
Proof. unfold reconciled. by destruct (cad_success cad). Qed.

Lemma codes_of_appended (w : world) (rev : Revision)
    (calls : list engine_call) (dirs : list (list string)) (d : nat) :
  codes_of {| w_db := with_revisions (w_db w) (revisions (w_db w) ++ [rev]);
              w_engine_calls := calls; w_made_dirs := dirs |} d =
  codes_of w d ++ (if design_id rev =? d then [revision_code rev] else []).
Proof.
  unfold codes_of. simpl. rewrite revisions_of_app, with_revisions_id, map_app.
  by destruct (design_id rev =? d).
Qed.

Lemma sequence_extends (codes : list string) (new : string) :
  coded_in_sequence codes ->
  new ∉ codes ->
  (codes = [] /\ new = "A" \/
   exists c, c ∈ codes /\ new = _increment_revision_code c) ->
  coded_in_sequence (codes ++ [new]).
Proof.
  intros [Hseq Hnd] Hnew Hfrom.
  assert (new = nth_code (S (length codes))) as ->.
  { destruct Hfrom as [[-> ->]|(c & Hc & ->)]; [done|].
    rewrite Hseq in Hc. apply list_elem_of_In, in_map_iff in Hc as (j & <- & Hj).
    apply in_seq in Hj. rewrite increment_nth_code.
    destruct (decide (j = length codes)) as [->|Hne]; [done|].
    exfalso. apply Hnew. rewrite Hseq. apply list_elem_of_In, in_map_iff.
    exists (S j). split; [by rewrite increment_nth_code|]. apply in_seq. lia. }
  split.
  - rewrite length_app. simpl. rewrite Nat.add_1_r, seq_S, map_app. simpl.
    by rewrite <- Hseq.
  - apply NoDup_app. split; [done|]. split.
    + intros x Hx ->%list_elem_of_singleton. done.
    + apply NoDup_singleton.
Qed.

(** One invocation keeps the codes of design [d] in sequence and appends
    the code it answered with. *)
Lemma generate_step (d : nat) (c : invocation) (w : world) :
  coded_in_sequence (codes_of w d) ->
  let out := fst (generate C (inv_now c) (inv_engine c) (inv_request c) w) in
  let w1 := snd (generate C (inv_now c) (inv_engine c) (inv_request c) w) in
  coded_in_sequence (codes_of w1 d) /\
  codes_of w1 d = codes_of w d ++ option_list (assigned_code d c out).
Proof.
  intros Hinv.
  destruct (generate_cases C (inv_now c) (inv_engine c) (inv_request c) w)
    as [[Hw Hout]|(design & piece_type & validation & rev0 & db1 & Hd & Hp & Hv & Hvalid & Hc)].
  - simpl. rewrite Hw. split; [done|].
    destruct (fst (generate C _ _ _ w)) as [resp|e] eqn:E; simpl.
    + destruct (Hout resp eq_refl) as (_ & _ & ->).
      destruct (_ =? d); simpl; by rewrite app_nil_r.
    + by rewrite app_nil_r.
  - rewrite (generate_created C _ _ _ _ _ _ _ _ _ Hd Hp Hv Hvalid Hc). simpl.
    apply create_ok in Hc as (_ & Hrev0 & Huniq).
    assert (design_id rev0 = req_design_id (inv_request c)) as Hdes by (by rewrite Hrev0).
    assert (revision_code rev0 =
            get_next_revision_code (w_db w) (req_design_id (inv_request c))) as Hcode
      by (by rewrite Hrev0).
    rewrite codes_of_appended.
    destruct (reconciled_key rev0
                (warnings_json C (map message (warnings validation)))
                (inv_engine c (engine_call_for C piece_type design (inv_request c)
                                 (revision_code rev0)))) as [-> ->].
    rewrite Hdes. destruct (req_design_id (inv_request c) =? d) eqn:Ed.
    + apply Nat.eqb_eq in Ed. rewrite Ed in *. simpl.
      split; [|done]. apply sequence_extends; [done| |].
      * intros Hin. apply list_elem_of_In, in_map_iff in Hin as (r & Hr & Hin).
        apply list_elem_of_In in Hin. by apply (Huniq r Hin).
      * destruct (get_next_revision_code_cases (w_db w) d) as [[Hnil HA]|(r & Hr & Hincr)].
        -- left. unfold codes_of. rewrite Hnil. split; [done|]. by rewrite Hcode.
        -- right. exists (revision_code r). split; [|by rewrite Hcode].
           apply list_elem_of_In, in_map_iff. exists r. split; [done|].
           by apply list_elem_of_In.
    + simpl. by rewrite !app_nil_r.
Qed.

Lemma run_invariant (d : nat) (calls : list invocation) (w : world) :
  coded_in_sequence (codes_of w d) ->
  coded_in_sequence (codes_of (snd (run C calls w)) d) /\
  codes_of (snd (run C calls w)) d =
  codes_of w d ++ assigned_codes d calls (fst (run C calls w)).
Proof.
  revert w. induction calls as [|c calls IH]; intros w Hinv; simpl.
  - by rewrite app_nil_r.
  - pose proof (generate_step d c w Hinv) as [Hinv1 Hcodes1].
    destruct (generate C (inv_now c) (inv_engine c) (inv_request c) w) as [out w1].
    simpl in Hinv1, Hcodes1.
    specialize (IH w1 Hinv1) as [Hinv' Hcodes'].
    destruct (run C calls w1) as [outs w']. simpl in *.
    split; [done|]. by rewrite Hcodes', Hcodes1, app_assoc.
Qed.

End RunFacts.

(** ** Allocation when the clock does not step back *)

Section SteadyClock.

Import RevisionRepository PieceController Runs.

Variable C : Collaborators.

Lemma code_value_snoc (l : list ascii) (c : ascii) :
  code_value (l ++ [c]) = 26 * code_value l + (ord c - 64).
Proof. unfold code_value. by rewrite fold_left_app. Qed.

Lemma code_value_digits (n : nat) : code_value (code_digits n n) = n.
Proof.
  induction (lt_wf n) as [n _ IH]. destruct n as [|m]; [done|].
  rewrite code_digits_step, code_value_snoc.
  pose proof (div26_le m) as Hq.
  pose proof (Nat.mod_upper_bound m 26 ltac:(lia)) as Hr.
  rewrite IH by lia. rewrite ord_letter by done.
  pose proof (Nat.div_mod_eq m 26). lia.
Qed.

Lemma nth_code_inj (a b : nat) : nth_code a = nth_code b -> a = b.
Proof.
  unfold nth_code. intros H. apply (f_equal list_ascii_of_string) in H.
  rewrite !list_ascii_of_string_of_list_ascii in H.
  apply (f_equal code_value) in H. by rewrite !code_value_digits in H.
Qed.

Lemma nondecreasing_snoc (l : list Revision) (x : Revision) :
  nondecreasing_generated_at l = true ->
  (forall r, r ∈ l -> String.leb (generated_at r) (generated_at x) = true) ->
  nondecreasing_generated_at (l ++ [x]) = true.
Proof.
  induction l as [|r l IH]; [done|]. intros Hl Hle.
  destruct l as [|y l].
  - simpl. rewrite Hle by (by left). done.
  - simpl in Hl. apply andb_prop in Hl as [Hry Hl].
    change (String.leb (generated_at r) (generated_at y) &&
            nondecreasing_generated_at ((y :: l) ++ [x]) = true).
    rewrite Hry. simpl. apply IH; [done|]. intros r' Hr'. apply Hle. by right.
Qed.

(** With the rows in sequence and handed over in creation order, the
    allocator yields the next term. *)
Lemma next_code_in_order (db : database) (d : nat) :
  get_by_design db d = revisions_of db d ->
  coded_in_sequence (map revision_code (revisions_of db d)) ->
  get_next_revision_code db d = nth_code (S (length (revisions_of db d))).
Proof.
  intros Horder [Hseq _]. unfold get_next_revision_code. rewrite Horder.
  destruct (revisions_of db d) as [|r0 l0] using rev_ind; [done|].
  rewrite last_snoc. rewrite length_map, length_app in Hseq. simpl in Hseq.
  rewrite Nat.add_1_r, seq_S, !map_app in Hseq. simpl in Hseq.
  apply app_inj_tail in Hseq as [_ ->].
  rewrite increment_nth_code, length_app. simpl. by rewrite Nat.add_1_r.
Qed.

Lemma next_code_is_new (db : database) (d : nat) (r : Revision) :
  get_by_design db d = revisions_of db d ->
  coded_in_sequence (map revision_code (revisions_of db d)) ->
  r ∈ revisions_of db d ->
  revision_code r <> get_next_revision_code db d.
Proof.
  intros Horder Hinv Hr Heq.
  rewrite (next_code_in_order db d Horder Hinv) in Heq.
  destruct Hinv as [Hseq _].
  assert (In (revision_code r) (map revision_code (revisions_of db d))) as Hin.
  { apply in_map. by apply list_elem_of_In. }
  rewrite Hseq, length_map in Hin. apply in_map_iff in Hin as (j & Hj & Hjin).
  rewrite Heq in Hj. apply nth_code_inj in Hj. apply in_seq in Hjin. lia.
Qed.

(** The INSERT of [create] goes through when the design exists and the
    allocated code is new for it. *)
Lemma create_succeeds (dumps : parameters -> string) (now : string) (db : database)
    (d : nat) (params : parameters) (desc by_ : string) :
  existsb (fun x => d_id x =? d) (designs db) = true ->
  (forall r, r ∈ revisions_of db d -> revision_code r <> get_next_revision_code db d) ->
  exists rev db', create dumps now db d params desc by_ = (Ok rev, db').
Proof.
  intros Hfk Hnew. unfold create, flush_insert. simpl. rewrite Hfk. simpl.
  destruct (existsb _ (revisions db)) eqn:Hdup.
  - exfalso. apply existsb_exists in Hdup as (r & Hin & Hr).
    apply andb_prop in Hr as [Hd Hcode]. apply String.eqb_eq in Hcode.
    apply (Hnew r); [|done]. unfold revisions_of.
    apply list_elem_of_In, filter_In. by split.
  - by eexists _, _.
Qed.

Lemma get_by_id_exists (db : database) (d : nat) (design : Design) :
  DesignRepository.get_by_id db d = Some design ->
  existsb (fun x => d_id x =? d) (designs db) = true.
Proof.
  unfold DesignRepository.get_by_id. intros [Hin Hd]%find_some.
  apply existsb_exists. by exists design.
Qed.

Lemma passes_validation_tables (db db' : database) (request : GenerationRequest) :
  designs db' = designs db -> piece_types db' = piece_types db ->
  passes_validation C db' request = passes_validation C db request.
Proof.
  intros Hd Hp. unfold passes_validation, DesignRepository.get_by_id, get_piece_type.
  by rewrite Hd, Hp.
Qed.

Lemma generate_keeps_tables (now : string) (engine : engine_call -> GenerationResult)
    (request : GenerationRequest) (w : world) :
  designs (w_db (snd (generate C now engine request w))) = designs (w_db w) /\
  piece_types (w_db (snd (generate C now engine request w))) = piece_types (w_db w).
Proof.
  destruct (generate_cases C now engine request w)
    as [[-> _]|(design & piece_type & validation & rev0 & db1 & Hd & Hp & Hv & Hvalid & Hc)];
    [done|].
  by rewrite (generate_created C _ _ _ _ _ _ _ _ _ Hd Hp Hv Hvalid Hc).
Qed.

(** An invocation that does not get past validation hands out no code. *)
Lemma generate_not_passing (d : nat) (c : invocation) (w : world) :
  (req_design_id (inv_request c) =? d) &&
  passes_validation C (w_db w) (inv_request c) = false ->
  assigned_code d c (fst (generate C (inv_now c) (inv_engine c) (inv_request c) w)) = None.
Proof.
  intros Hno. unfold assigned_code.
  destruct (req_design_id (inv_request c) =? d); [|by destruct (fst _)].
  simpl in Hno.
  destruct (generate_cases C (inv_now c) (inv_engine c) (inv_request c) w)
    as [[_ Hout]|(design & piece_type & validation & rev0 & db1 & Hd & Hp & Hv & Hvalid & Hc)].
  - destruct (fst _) as [resp|e]; [|done]. by destruct (Hout resp eq_refl) as (_ & _ & ->).
  - unfold passes_validation in Hno. by rewrite Hd, Hp, Hv, Hvalid in Hno.
Qed.

(** An invocation against [d] that gets past validation is handed a code
    when the rows of [d] are in sequence and stamped in creation order. *)
Lemma generate_passing (d : nat) (c : invocation) (rest : list invocation) (w : world) :
  coded_in_sequence (codes_of w d) ->
  stamped_in_order w d (c :: rest) ->
  (req_design_id (inv_request c) =? d) &&
  passes_validation C (w_db w) (inv_request c) = true ->
  exists code,
    assigned_code d c (fst (generate C (inv_now c) (inv_engine c) (inv_request c) w)) =
    Some code.
Proof.
  intros Hinv [Hsorted _] [Hd%Nat.eqb_eq Hpass]%andb_prop.
  unfold passes_validation in Hpass.
  destruct (DesignRepository.get_by_id (w_db w) (req_design_id (inv_request c)))
    as [design|] eqn:Hdes; [|done].
  destruct (get_piece_type (w_db w) (d_piece_type_id design)) as [piece_type|] eqn:Hp; [|done].
  destruct (validate C _ _) as [validation|e] eqn:Hv; [|done].
  pose proof (order_by_generated_at_sorted _ Hsorted) as Horder.
  fold (get_by_design (w_db w) d) in Horder.
  destruct (create_succeeds (json_dumps C) (inv_now c) (w_db w) d
              (req_parameters (inv_request c)) (req_description (inv_request c)) "Fede")
    as (rev0 & db1 & Hc).
  { rewrite <- Hd. by apply (get_by_id_exists _ _ design). }
  { intros r Hr. by apply next_code_is_new. }
  rewrite <- Hd in Hc.
  rewrite (generate_created C _ _ _ _ _ _ _ _ _ Hdes Hp Hv Hpass Hc). simpl.
  rewrite Hd, Nat.eqb_refl. by eexists.
Qed.

(** One invocation keeps the rows of [d] stamped in creation order. *)
Lemma generate_keeps_stamps (d : nat) (c : invocation) (rest : list invocation) (w : world) :
  stamped_in_order w d (c :: rest) ->
  Forall (fun c' => String.leb (inv_now c) (inv_now c') = true) rest ->
  stamped_in_order (snd (generate C (inv_now c) (inv_engine c) (inv_request c) w)) d rest.
Proof.
  intros [Hsorted Hbefore] Hclock.
  destruct (generate_cases C (inv_now c) (inv_engine c) (inv_request c) w)
    as [[-> _]|(design & piece_type & validation & rev0 & db1 & Hd & Hp & Hv & Hvalid & Hc)].
  { split; [done|]. intros r c' Hr Hc'. apply Hbefore; [done|by right]. }
  rewrite (generate_created C _ _ _ _ _ _ _ _ _ Hd Hp Hv Hvalid Hc). simpl.
  apply create_ok in Hc as (_ & Hrev0 & _).
  set (row := reconciled _ _).
  assert (design_id row = design_id rev0 /\ generated_at row = inv_now c) as [Hrd Hrt].
  { unfold row, reconciled. rewrite Hrev0. by destruct (cad_success _). }
  unfold stamped_in_order. simpl.
  rewrite revisions_of_app, with_revisions_id.
  destruct (design_id row =? d); simpl.
  - split.
    + apply nondecreasing_snoc; [done|]. intros r Hr. rewrite Hrt.
      apply Hbefore; [done|by left].
    + intros r c' [Hr|Hr%list_elem_of_singleton]%elem_of_app Hc'.
      * apply Hbefore; [done|by right].
      * subst r. rewrite Hrt. rewrite Forall_forall in Hclock.
        by apply Hclock.
  - rewrite app_nil_r. split; [done|].
    intros r c' Hr Hc'. apply Hbefore; [done|by right].
Qed.

Lemma run_hands_out_codes (d : nat) (calls : list invocation) (w : world) :
  coded_in_sequence (codes_of w d) ->
  stamped_in_order w d calls ->
  clock_nondecreasing calls ->
  length (assigned_codes d calls (fst (run C calls w))) =
  length (passing C (w_db w) d calls).
Proof.
  revert w. induction calls as [|c calls IH]; intros w Hinv Hstamps Hclock; [done|].
  destruct Hclock as [Hc Hclock]. simpl.
  pose proof (generate_step C d c w Hinv) as [Hinv1 _].
  pose proof (generate_keeps_stamps d c calls w Hstamps Hc) as Hstamps1.
  pose proof (generate_keeps_tables (inv_now c) (inv_engine c) (inv_request c) w)
    as [Hdes Hpt].
  pose proof (generate_not_passing d c w) as Hno.
  pose proof (generate_passing d c calls w Hinv Hstamps) as Hyes.
  destruct (generate C (inv_now c) (inv_engine c) (inv_request c) w) as [out w1].
  simpl in *. specialize (IH w1 Hinv1 Hstamps1 Hclock).
  destruct (run C calls w1) as [outs w']. simpl in *.
  rewrite length_app, IH. unfold passing at 1.
  assert (List.filter (fun c0 => (req_design_id (inv_request c0) =? d) &&
                                 passes_validation C (w_db w1) (inv_request c0)) calls =
          passing C (w_db w) d calls) as ->.
  { unfold passing. apply filter_ext. intros c0.
    by rewrite (passes_validation_tables (w_db w) (w_db w1)). }
  destruct ((req_design_id (inv_request c) =? d) &&
            passes_validation C (w_db w) (inv_request c)) eqn:E.
  - destruct (Hyes eq_refl) as [code ->]. done.
  - by rewrite (Hno eq_refl).
Qed.

(** When the clock never steps back, every invocation against [d] that
    gets past validation is handed a code: the codes handed out are the
    first N terms of the sequence for the N such invocations. *)
Lemma run_with_steady_clock (d : nat) (calls : list invocation) (w0 : world) :
  revisions_of (w_db w0) d = [] ->
  clock_nondecreasing calls ->
  assigned_codes d calls (fst (run C calls w0)) =
  map nth_code (seq 1 (length (passing C (w_db w0) d calls))).
Proof.
  intros Hfresh Hclock.
  assert (coded_in_sequence (codes_of w0 d)) as Hinv0.
  { unfold codes_of. rewrite Hfresh. split; [done|]. apply NoDup_nil_2. }
  assert (stamped_in_order w0 d calls) as Hstamps0.
  { unfold stamped_in_order. rewrite Hfresh. split; [done|].
    intros r c Hr. by apply elem_of_nil in Hr. }
  destruct (run_invariant C d calls w0 Hinv0) as [[Hseq _] Hcodes].
  unfold codes_of at 2 in Hcodes. rewrite Hfresh in Hcodes. simpl in Hcodes.
  rewrite Hcodes in Hseq.
  by rewrite <- (run_hands_out_codes d calls w0 Hinv0 Hstamps0 Hclock).
Qed.

End SteadyClock.

(** ** The increment on strings *)

Section IncrementStrings.



Lemma ord_chr (n : nat) : n < 256 -> ord (chr n) = n.
Proof. apply nat_ascii_embedding. Qed.

Lemma chr_ord (c : ascii) : chr (ord c) = c.
Proof. apply ascii_nat_embedding. Qed.

Lemma ord_bound (c : ascii) : ord c < 256.
Proof. apply nat_ascii_bounded. Qed.








Lemma upper_char_letter (c : ascii) :
  is_letter c = true -> is_upper_letter (upper_char c) = true.
Proof.
  unfold is_letter, upper_char. intros [H|H]%orb_prop.
  - destruct ((97 <=? ord c) && (ord c <=? 122)) eqn:E; [|done].
    unfold is_upper_letter in H.
    apply andb_prop in H as [_ H%Nat.leb_le].
    apply andb_prop in E as [E%Nat.leb_le _]. lia.
  - rewrite H. apply andb_prop in H as [H1%Nat.leb_le H2%Nat.leb_le].
    unfold is_upper_letter. rewrite ord_chr by lia.
    apply andb_true_intro. split; apply Nat.leb_le; lia.
Qed.




End IncrementStrings.

(** ** Updates of an existing revision *)

Section UpdateFacts.

Import RevisionRepository.

Lemma get_by_id_rev_id (db : database) (rid : nat) (rev : Revision) :
  get_by_id db rid = Some rev -> rev_id rev = rid.
Proof.
  unfold get_by_id. intros [_ H]%find_some. by apply Nat.eqb_eq in H.
Qed.

Lemma save_get_same (db : database) (old new : Revision) :
  get_by_id db (rev_id new) = Some old ->
  get_by_id (save db new) (rev_id new) = Some new.
Proof.
  unfold get_by_id, save. simpl.
  induction (revisions db) as [|x l IH]; simpl; [done|].
  destruct (rev_id x =? rev_id new) eqn:E; simpl.
  - by rewrite Nat.eqb_refl.
  - rewrite E. apply IH.
Qed.

Lemma save_get_other (db : database) (new : Revision) (other : nat) :
  other <> rev_id new ->
  get_by_id (save db new) other = get_by_id db other.
Proof.
  intros Hne. unfold get_by_id, save. simpl.
  induction (revisions db) as [|x l IH]; simpl; [done|].
  destruct (rev_id x =? rev_id new) eqn:E; simpl.
  - apply Nat.eqb_eq in E. rewrite E.
    destruct (rev_id new =? other) eqn:E'; [|done].
    apply Nat.eqb_eq in E'. congruence.
  - by rewrite IH.
Qed.

Lemma save_rev_ids (db : database) (new : Revision) :
  map rev_id (revisions (save db new)) = map rev_id (revisions db).
Proof.
  unfold save. simpl. induction (revisions db) as [|x l IH]; simpl; [done|].
  rewrite IH. f_equal. destruct (rev_id x =? rev_id new) eqn:E; [|done].
  apply Nat.eqb_eq in E. done.
Qed.

Lemma save_only_row_changed (db : database) (new : Revision) :
  only_row_changed db (save db new) (rev_id new).
Proof.
  split; [done|]. split; [done|]. split; [apply save_rev_ids|].
  intros other Hne. by apply save_get_other.
Qed.

Lemma allowed_eco_status_true (status : string) :
  allowed_eco_status status = true <->
  status = "draft" \/ status = "issued" \/ status = "obsolete".
Proof.
  unfold allowed_eco_status. rewrite !orb_true_iff, !String.eqb_eq. tauto.
Qed.

End UpdateFacts.

(** * The claims of the specification *)

Section ValidationClaims.

Variable C : Collaborators.

(** C3. Whenever [validate] returns a result, [is_valid] is true exactly
    when the number of recorded messages of severity error is zero; a
    result whose messages are all warnings is valid; and an empty rule list
    gives a valid result with no message. *)
Theorem validate_validity (params : parameters) (rules : list rule)
    (res : ValidationResult) :
  validate C params rules = Ok res ->
  is_valid res = (length (errors res) =? 0) /\
  (Forall (fun m => severity m = WARNING) (messages res) -> is_valid res = true) /\
  validate C params [] = Ok {| is_valid := true; messages := [] |}.
Proof.
  intros Hres. pose proof (validate_is_valid C params rules res Hres) as Hv.
  split; [|split].
  - rewrite Hv. apply existsb_is_error_filter.
  - intros Hall. rewrite Hv. apply negb_true_iff, not_true_iff_false.
    intros (m & Hm & Herr)%existsb_exists.
    rewrite Forall_forall in Hall. specialize (Hall m ltac:(by apply list_elem_of_In)).
    unfold is_error in Herr. apply bool_decide_eq_true in Herr. congruence.
  - reflexivity.
Qed.


(** C10. [validate] returns exactly when every rule's declared severity is
    "error" or "warning"; otherwise it raises the [ValueError] of
    [Severity(...)] for a rule outside the enumeration. *)
Theorem validate_total_iff_severities_in_enum (params : parameters) (rules : list rule) :
  returns (validate C params rules) = forallb severity_in_enum rules /\
  (forall r s, r ∈ rules -> r !! "severity" = Some s ->
               s <> "error" -> s <> "warning" ->
               exists culprit, validate C params rules = Raise (ValueError culprit)).
Proof.
  split; [apply validate_returns_iff|].
  intros r s Hr Hs He Hw.
  assert (forallb severity_in_enum rules = false) as Hall.
  { apply not_true_iff_false. intros Hall. rewrite forallb_forall in Hall.
    specialize (Hall r ltac:(by apply list_elem_of_In)).
    unfold severity_in_enum, declared_severity in Hall. rewrite Hs in Hall. simpl in Hall.
    apply orb_prop in Hall as [H|H]; apply String.eqb_eq in H; done. }
  destruct (validate_loop_raises C params rules Hall []) as (r' & _ & _ & Hraise).
  unfold validate. rewrite Hraise. by eexists.
Qed.

End ValidationClaims.

Section PipelineClaims.

Import RevisionRepository PieceController.

Variable C : Collaborators.

Lemma errors_make_invalid (params : parameters) (rules : list rule)
    (validation : ValidationResult) :
  validate C params rules = Ok validation ->
  errors validation <> [] ->
  is_valid validation = false.
Proof.
  intros Hv Herr. rewrite (validate_is_valid C params rules validation Hv).
  rewrite existsb_is_error_filter. fold (errors validation).
  destruct (errors validation); [done|reflexivity].
Qed.

(** C2. When the design and its piece type resolve and validation records
    at least one message of severity error, [generate] returns a failure
    response carrying the error messages and the warnings, and the world is
    left as it was: no revision row is added and no call to the CAD engine
    is made. *)
Theorem generate_aborts_on_invalid (now : string)
    (engine : engine_call -> GenerationResult) (request : GenerationRequest)
    (w : world) (design : Design) (piece_type : PieceType)
    (validation : ValidationResult) :
  DesignRepository.get_by_id (w_db w) (req_design_id request) = Some design ->
  get_piece_type (w_db w) (d_piece_type_id design) = Some piece_type ->
  validate C (req_parameters request)
    (get_validation_rules (catalog_pieces C) (pt_code piece_type)) = Ok validation ->
  errors validation <> [] ->
  exists resp w',
    generate C now engine request w = (Ok resp, w') /\
    success resp = false /\
    revision_id resp = None /\
    resp_errors resp = map message (errors validation) /\
    resp_warnings resp = map message (warnings validation) /\
    revisions (w_db w') = revisions (w_db w) /\
    w_engine_calls w' = w_engine_calls w /\
    w' = w.
Proof.
  intros Hd Hp Hv Herr.
  pose proof (errors_make_invalid _ _ _ Hv Herr) as Hinvalid.
  unfold generate. rewrite Hd, Hp, Hv, Hinvalid. simpl.
  eexists _, w. repeat split.
Qed.

(** C6. When an invocation calls the CAD engine and the engine reports
    failure, the store holds exactly one more row than before, the row of
    this attempt: its six output paths are null, [validation_passed] is 1
    and its status is draft. The response has [success] false, carries the
    row's id and code and the output location, and its error is the
    engine's message, or the fallback text when the engine gave no
    message. *)
Theorem generate_engine_failure_keeps_revision (now : string)
    (engine : engine_call -> GenerationResult) (request : GenerationRequest)
    (w w' : world) (out : result GenerationResponse) (call : engine_call) :
  generate C now engine request w = (out, w') ->
  w_engine_calls w' = w_engine_calls w ++ [call] ->
  cad_success (engine call) = false ->
  exists rev resp,
    out = Ok resp /\
    revisions (w_db w') = revisions (w_db w) ++ [rev] /\
    get_by_id (w_db w') (rev_id rev) = Some rev /\
    design_id rev = req_design_id request /\
    (fcstd_path rev = None /\ step_path rev = None /\ dxf_path rev = None /\
     pdf_path rev = None /\ bom_xlsx_path rev = None /\ bom_pdf_path rev = None) /\
    validation_passed rev = 1%Z /\
    eco_status rev = "draft" /\
    success resp = false /\
    revision_id resp = Some (rev_id rev) /\
    resp_revision_code resp = Some (revision_code rev) /\
    output_dir resp = Some (call_output_dir call) /\
    (forall m, cad_error_message (engine call) = Some m -> m <> "" ->
               resp_errors resp = [m]) /\
    (cad_error_message (engine call) = None \/ cad_error_message (engine call) = Some "" ->
     resp_errors resp = ["Error desconocido en el motor CAD."]).
Proof.
  intros Hgen Hcalls Hfail.
  destruct (generate_cases C now engine request w)
    as [[Hw _]|(design & piece_type & validation & rev0 & db1 & Hd & Hp & Hv & Hvalid & Hc)].
  { rewrite Hgen in Hw. simpl in Hw. subst w'.
    apply (f_equal length) in Hcalls. rewrite length_app in Hcalls. simpl in Hcalls. lia. }
  rewrite (generate_created C _ _ _ _ _ _ _ _ _ Hd Hp Hv Hvalid Hc) in Hgen.
  injection Hgen as <- <-. simpl in Hcalls.
  apply app_inj_tail in Hcalls as [_ <-].
  unfold reconciled. rewrite Hfail.
  pose proof Hc as (_ & Hrev0 & _)%create_ok.
  set (rev := set_validation rev0 1%Z (warnings_json C (map message (warnings validation)))).
  assert (forall r, r ∈ revisions (w_db w) -> rev_id r < rev_id rev) as Hfresh.
  { intros r Hr. simpl. rewrite Hrev0. simpl. by apply next_rowid_fresh. }
  exists rev. eexists. split; [done|].
  split; [done|]. split; [by apply get_by_id_last|].
  simpl. rewrite Hrev0. simpl. repeat split.
  - intros m Hm Hne. rewrite Hm. unfold error_message_or_default.
    destruct (String.eqb_spec m ""); done.
  - by intros [-> | ->].
Qed.

End PipelineClaims.

Section UpdateClaims.

Import RevisionRepository.

(** C7. [update_eco_status] raises when the status is none of draft,
    issued, obsolete, and then the store is as before. With one of the
    three values and an existing revision it sets [eco_status], sets
    [eco_number] and [eco_reason] when they are supplied, and changes no
    other column of the revision and nothing else in the store. *)
Theorem update_eco_status_guarded (db : database) (rid : nat) (status : string)
    (eco_number eco_reason : option string) :
  (status <> "draft" -> status <> "issued" -> status <> "obsolete" ->
   update_eco_status db rid status eco_number eco_reason =
   (Raise (ValueError status), db)) /\
  (status = "draft" \/ status = "issued" \/ status = "obsolete" ->
   forall rev, get_by_id db rid = Some rev ->
   exists rev' db',
     update_eco_status db rid status eco_number eco_reason = (Ok (Some rev'), db') /\
     get_by_id db' rid = Some rev' /\
     eco_status rev' = status /\
     (forall n, eco_number = Some n -> Models.eco_number rev' = Some n) /\
     (eco_number = None -> Models.eco_number rev' = Models.eco_number rev) /\
     (forall n, eco_reason = Some n -> Models.eco_reason rev' = Some n) /\
     (eco_reason = None -> Models.eco_reason rev' = Models.eco_reason rev) /\
     unchanged_outside_eco rev rev' /\
     only_row_changed db db' rid).
Proof.
  split.
  - intros H1 H2 H3. unfold update_eco_status.
    destruct (allowed_eco_status status) eqn:E; [|done].
    apply allowed_eco_status_true in E. tauto.
  - intros Hst rev Hrev. apply allowed_eco_status_true in Hst.
    unfold update_eco_status. rewrite Hst, Hrev. simpl.
    pose proof (get_by_id_rev_id db rid rev Hrev) as Hid. subst rid.
    eexists _, _. split; [done|].
    split; [by apply (save_get_same db rev (set_eco rev _ _ _))|].
    split; [done|]. split; [by intros n ->|]. split; [by intros ->|].
    split; [by intros n ->|]. split; [by intros ->|].
    split; [by repeat split|].
    apply (save_only_row_changed db (set_eco rev _ _ _)).
Qed.

(** C8. For an existing revision, [update_output_paths] sets each of the
    six artifact path columns to the value [paths] holds under its key and
    to null when the key is absent, and changes no other column of the
    revision and nothing else in the store. *)
Theorem update_output_paths_overwrites (db : database) (rid : nat)
    (paths : gmap string (option string)) (rev : Revision) :
  get_by_id db rid = Some rev ->
  exists rev' db',
    update_output_paths db rid paths = (Some rev', db') /\
    get_by_id db' rid = Some rev' /\
    (forall key field, (key, field) ∈ artifact_fields ->
       (forall v, paths !! key = Some v -> field rev' = v) /\
       (paths !! key = None -> field rev' = None)) /\
    unchanged_outside_paths rev rev' /\
    only_row_changed db db' rid.
Proof.
  intros Hrev. unfold update_output_paths. rewrite Hrev.
  pose proof (get_by_id_rev_id db rid rev Hrev) as Hid. subst rid.
  eexists _, _. split; [done|].
  split; [by apply (save_get_same db rev (set_paths rev _ _ _ _ _ _))|].
  split.
  { intros key field Hin. unfold artifact_fields in Hin.
    repeat (apply elem_of_cons in Hin as [[= -> ->]|Hin];
            [unfold paths_get; simpl; split; [by intros v ->|by intros ->]|]).
    by apply elem_of_nil in Hin. }
  split; [by repeat split|].
  apply (save_only_row_changed db (set_paths rev _ _ _ _ _ _)).
Qed.

End UpdateClaims.

Section AllocationClaims.

Import RevisionRepository PieceController Runs.



End AllocationClaims.

(** ** The claims at concrete inputs *)

Lemma validate_validity_witness :
  let rules := [Sample.rule_thick; Sample.rule_ratio] in
  let res := {| is_valid := true;
                messages := [{| rule_id := "VR-BP-02"; severity := WARNING;
                                message := "Relacion largo/ancho supera 10:1." |}] |} in
  validate Sample.collaborators Sample.warned_params rules = Ok res /\
  (is_valid res = (length (errors res) =? 0) /\
   (Forall (fun m => severity m = WARNING) (messages res) -> is_valid res = true) /\
   validate Sample.collaborators Sample.warned_params [] =
   Ok {| is_valid := true; messages := [] |}).
Proof.
  intros rules res.
  split; [vm_compute; reflexivity|].
  apply (validate_validity Sample.collaborators Sample.warned_params rules res).
  vm_compute; reflexivity.
Defined.


Example run_assigns_A_B_C :
  Runs.assigned_codes 1 SampleRun.calls
    (fst (Runs.run Sample.collaborators SampleRun.calls Sample.fresh_world)) =
  ["A"; "B"; "C"].
Proof. vm_compute. reflexivity. Qed.

(** With a clock that steps back, the third request reads the code of the
    first revision again and its INSERT is refused. *)
Example run_with_clock_back :
  map returns (fst (Runs.run Sample.collaborators SampleRun.calls_clock_back
                      Sample.fresh_world)) = [true; true; false] /\
  Runs.assigned_codes 1 SampleRun.calls_clock_back
    (fst (Runs.run Sample.collaborators SampleRun.calls_clock_back Sample.fresh_world)) =
  ["A"; "B"].
Proof. vm_compute. split; reflexivity. Qed.


Lemma generate_aborts_on_invalid_witness :
  let request := Sample.request Sample.invalid_params in
  let w := Sample.fresh_world in
  (DesignRepository.get_by_id (PieceController.w_db w)
     (PieceController.req_design_id request) = Some SampleRun.design1 /\
   get_piece_type (PieceController.w_db w) (d_piece_type_id SampleRun.design1) =
   Some SampleRun.piece1 /\
   validate Sample.collaborators (PieceController.req_parameters request)
     (get_validation_rules (catalog_pieces Sample.collaborators) (pt_code SampleRun.piece1)) =
   Ok SampleRun.invalid_validation /\
   errors SampleRun.invalid_validation <> []) /\
  exists resp w',
    PieceController.generate Sample.collaborators "2026-01-01T00:00:01+00:00"
      Sample.working_engine request w = (Ok resp, w') /\
    PieceController.success resp = false /\
    PieceController.revision_id resp = None /\
    PieceController.resp_errors resp = map message (errors SampleRun.invalid_validation) /\
    PieceController.resp_warnings resp = map message (warnings SampleRun.invalid_validation) /\
    revisions (PieceController.w_db w') = revisions (PieceController.w_db w) /\
    PieceController.w_engine_calls w' = PieceController.w_engine_calls w /\
    w' = w.
Proof.
  intros request w.
  assert (errors SampleRun.invalid_validation <> []) as Herr by (vm_compute; discriminate).
  split; [repeat split; try (vm_compute; reflexivity); exact Herr|].
  apply (generate_aborts_on_invalid Sample.collaborators "2026-01-01T00:00:01+00:00"
           Sample.working_engine request w SampleRun.design1 SampleRun.piece1
           SampleRun.invalid_validation);
    try (vm_compute; reflexivity); exact Herr.
Defined.

Lemma generate_engine_failure_keeps_revision_witness :
  let request := Sample.request Sample.warned_params in
  let w := SampleRun.world_after_one in
  let r := PieceController.generate Sample.collaborators "2026-01-01T00:00:02+00:00"
             Sample.failing_engine request w in
  (r = (fst r, snd r) /\
   PieceController.w_engine_calls (snd r) =
   PieceController.w_engine_calls w ++ [SampleRun.failing_call] /\
   PieceController.cad_success (Sample.failing_engine SampleRun.failing_call) = false) /\
  exists rev resp,
    fst r = Ok resp /\
    revisions (PieceController.w_db (snd r)) = revisions (PieceController.w_db w) ++ [rev] /\
    RevisionRepository.get_by_id (PieceController.w_db (snd r)) (rev_id rev) = Some rev /\
    design_id rev = PieceController.req_design_id request /\
    (fcstd_path rev = None /\ step_path rev = None /\ dxf_path rev = None /\
     pdf_path rev = None /\ bom_xlsx_path rev = None /\ bom_pdf_path rev = None) /\
    validation_passed rev = 1%Z /\
    eco_status rev = "draft" /\
    PieceController.success resp = false /\
    PieceController.revision_id resp = Some (rev_id rev) /\
    PieceController.resp_revision_code resp = Some (revision_code rev) /\
    PieceController.output_dir resp =
    Some (PieceController.call_output_dir SampleRun.failing_call) /\
    (forall m,
       PieceController.cad_error_message (Sample.failing_engine SampleRun.failing_call) =
       Some m -> m <> "" -> PieceController.resp_errors resp = [m]) /\
    (PieceController.cad_error_message (Sample.failing_engine SampleRun.failing_call) = None \/
     PieceController.cad_error_message (Sample.failing_engine SampleRun.failing_call) = Some "" ->
     PieceController.resp_errors resp = ["Error desconocido en el motor CAD."]).
Proof.
  intros request w r.
  split; [repeat split; vm_compute; reflexivity|].
  apply (generate_engine_failure_keeps_revision Sample.collaborators
           "2026-01-01T00:00:02+00:00" Sample.failing_engine request w (snd r) (fst r)
           SampleRun.failing_call); vm_compute; reflexivity.
Defined.

Example engine_failure_response :
  fst (PieceController.generate Sample.collaborators "2026-01-01T00:00:02+00:00"
         Sample.failing_engine (Sample.request Sample.warned_params)
         SampleRun.world_after_one) =
  Ok {| PieceController.success := false;
        PieceController.revision_id := Some 2;
        PieceController.resp_revision_code := Some "B";
        PieceController.output_dir := Some ["outputs"; "base_plate"; "Placa_Test"; "B"];
        PieceController.resp_errors := ["Fallo simulado del motor CAD."];
        PieceController.resp_warnings := ["Relacion largo/ancho supera 10:1."];
        PieceController.elapsed_seconds := 0%float |}.
Proof. vm_compute. reflexivity. Qed.

Lemma update_output_paths_overwrites_witness :
  let db := PieceController.w_db SampleRun.world_after_one in
  let paths : gmap string (option string) := {[ "dxf" := Some "outputs/PB_A.dxf" ]} in
  let rev := SampleRun.row_A "2026-01-01T00:00:01+00:00" in
  RevisionRepository.get_by_id db 1 = Some rev /\
  exists rev' db',
    RevisionRepository.update_output_paths db 1 paths = (Some rev', db') /\
    RevisionRepository.get_by_id db' 1 = Some rev' /\
    (forall key field, (key, field) ∈ artifact_fields ->
       (forall v, paths !! key = Some v -> field rev' = v) /\
       (paths !! key = None -> field rev' = None)) /\
    unchanged_outside_paths rev rev' /\
    only_row_changed db db' 1.
Proof.
  intros db paths rev.
  split; [vm_compute; reflexivity|].
  apply (update_output_paths_overwrites db 1 paths rev).
  vm_compute; reflexivity.
Defined.

(** A regeneration that yields only a DXF clears the paths that were set. *)
Example update_output_paths_clears :
  let db := PieceController.w_db SampleRun.world_after_one in
  let paths : gmap string (option string) := {[ "dxf" := Some "outputs/PB_A.dxf" ]} in
  (fun r => (fcstd_path r, step_path r, dxf_path r)) <$>
    fst (RevisionRepository.update_output_paths db 1 paths) =
  Some (None, None, Some "outputs/PB_A.dxf").
Proof. vm_compute. reflexivity. Qed.

Example update_eco_status_examples :
  let db := PieceController.w_db SampleRun.world_after_one in
  RevisionRepository.update_eco_status db 1 "invalid_status" None None =
  (Raise (ValueError "invalid_status"), db) /\
  (fun r => (eco_status r, eco_number r, eco_reason r)) <$>
    RevisionRepository.get_by_id
      (snd (RevisionRepository.update_eco_status db 1 "issued" (Some "ECO-001") None)) 1 =
  Some ("issued", Some "ECO-001", None).
Proof. vm_compute. split; reflexivity. Qed.

Example validate_raises_on_unknown_severity :
  validate Sample.collaborators Sample.valid_params
    [Sample.rule_thick; Sample.rule_bad_severity] = Raise (ValueError "fatal").
Proof. vm_compute. reflexivity. Qed.


(** The allocator on the rows of two generations: the next code is C when
    the timestamps follow the creation order, and B again when the second
    row carries the earlier timestamp. *)
Example allocator_follows_generated_at :
  RevisionRepository.get_next_revision_code
    (SampleRun.db_two "2026-01-01T00:00:01+00:00" "2026-01-01T00:00:02+00:00") 1 = "C" /\
  RevisionRepository.get_next_revision_code
    (SampleRun.db_two "2026-01-01T00:00:01+00:00" "2026-01-01T00:00:01+00:00") 1 = "C" /\
  RevisionRepository.get_next_revision_code
    (SampleRun.db_two "2026-01-01T00:00:02+00:00" "2026-01-01T00:00:01+00:00") 1 = "B".
Proof. vm_compute. repeat split. Qed.

Lemma update_eco_status_guarded_witness :
  let db := SampleRun.db_two "2026-01-01T00:00:01+00:00" "2026-01-01T00:00:02+00:00" in
  ("invalid_status" <> "draft" /\ "invalid_status" <> "issued" /\
   "invalid_status" <> "obsolete") /\
  RevisionRepository.update_eco_status db 1 "invalid_status" (Some "ECO-001") None =
  (Raise (ValueError "invalid_status"), db).
Proof.
  intros db. split; [repeat split; discriminate|].
  apply (proj1 (update_eco_status_guarded db 1 "invalid_status" (Some "ECO-001") None));
    discriminate.
Defined.

Lemma validate_total_iff_severities_in_enum_witness :
  let rules := [Sample.rule_thick; Sample.rule_bad_severity] in
  (Sample.rule_bad_severity ∈ rules /\
   Sample.rule_bad_severity !! "severity" = Some "fatal" /\
   "fatal" <> "error" /\ "fatal" <> "warning") /\
  exists culprit,
    validate Sample.collaborators Sample.valid_params rules = Raise (ValueError culprit).
Proof.
  intros rules.
  assert (Sample.rule_bad_severity ∈ rules) as Hin by (right; left).
  split; [split; [exact Hin|split; [vm_compute; reflexivity|split; discriminate]]|].
  apply (proj2 (validate_total_iff_severities_in_enum Sample.collaborators
                  Sample.valid_params rules)
           Sample.rule_bad_severity "fatal");
    [exact Hin|vm_compute; reflexivity|discriminate|discriminate].
Defined.

(** The sample run has a steady clock: its three requests that pass
    validation are the three that are handed a code. *)
Example steady_clock_run :
  Runs.clock_nondecreasing SampleRun.calls /\
  length (Runs.passing Sample.collaborators Sample.empty_db 1 SampleRun.calls) = 3.
Proof.
  split; [|vm_compute; reflexivity].
  simpl. repeat split; repeat constructor.
Qed.

(** * Further properties of the code *)

(** ** The validation engine *)

Section ValidationMore.

Variable C : Collaborators.

Lemma validate_rule_acc (params : parameters) (msgs : list ValidationMessage) (r : rule) :
  validate_rule C params msgs r =
  match validate_rule C params [] r with
  | Ok added => Ok (msgs ++ added)
  | Raise e => Raise e
  end.
Proof.
  unfold validate_rule. destruct (Severity_of _) as [sev|e]; simpl; [|done].
  destruct (py_eval C _ params) as [[|]|exc]; simpl; by rewrite ?app_nil_r.
Qed.

Lemma validate_loop_acc (params : parameters) (rules : list rule)
    (msgs : list ValidationMessage) :
  validate_loop C params rules msgs =
  match validate_loop C params rules [] with
  | Ok added => Ok (msgs ++ added)
  | Raise e => Raise e
  end.
Proof.
  revert msgs. induction rules as [|r rules IH]; intros msgs; simpl.
  - by rewrite app_nil_r.
  - rewrite (validate_rule_acc params msgs r).
    destruct (validate_rule C params [] r) as [added|e]; simpl; [|done].
    rewrite (IH (msgs ++ added)), (IH added).
    destruct (validate_loop C params rules []) as [more|e]; [|done].
    by rewrite app_assoc.
Qed.

Lemma validate_loop_app (params : parameters) (rules1 rules2 : list rule)
    (msgs : list ValidationMessage) :
  validate_loop C params (rules1 ++ rules2) msgs =
  match validate_loop C params rules1 msgs with
  | Ok msgs1 => validate_loop C params rules2 msgs1
  | Raise e => Raise e
  end.
Proof.
  revert msgs. induction rules1 as [|r rules1 IH]; intros msgs; simpl; [done|].
  destruct (validate_rule C params msgs r) as [msgs'|e]; simpl; [apply IH|done].
Qed.

(** X1. Validating the concatenation of two rule lists is validating each:
    the first exception raised is the one of the whole, and otherwise the
    messages are those of the first list followed by those of the second,
    and the whole is valid exactly when both are. *)
Theorem validate_app (params : parameters) (rules1 rules2 : list rule) :
  validate C params (rules1 ++ rules2) =
  match validate C params rules1, validate C params rules2 with
  | Raise e, _ => Raise e
  | Ok _, Raise e => Raise e
  | Ok res1, Ok res2 =>
      Ok {| is_valid := is_valid res1 && is_valid res2;
            messages := messages res1 ++ messages res2 |}
  end.
Proof.
  unfold validate. rewrite validate_loop_app.
  destruct (validate_loop C params rules1 []) as [msgs1|e]; simpl; [|done].
  rewrite validate_loop_acc.
  destruct (validate_loop C params rules2 []) as [msgs2|e]; simpl; [|done].
  by rewrite existsb_app, negb_orb.
Qed.

Lemma errors_warnings_perm (msgs : list ValidationMessage) :
  List.filter is_error msgs ++ List.filter is_warning msgs ≡ₚ msgs.
Proof.
  induction msgs as [|m msgs IH]; simpl; [done|].
  unfold is_error at 1, is_warning at 1. destruct (severity m); simpl.
  - by rewrite IH.
  - rewrite <- Permutation_middle. by rewrite IH.
Qed.

Lemma filter_sublist {A : Type} (P : A -> bool) (l : list A) :
  sublist (List.filter P l) l.
Proof.
  induction l as [|x l IH]; simpl; [constructor|].
  destruct (P x); by constructor.
Qed.

(** X2. The [errors] and the [warnings] of a result share its messages out
    between them: each message is in exactly one of the two lists, and
    each list keeps the order of the messages. *)
Theorem errors_warnings_partition (res : ValidationResult) :
  errors res ++ warnings res ≡ₚ messages res /\
  sublist (errors res) (messages res) /\
  sublist (warnings res) (messages res) /\
  (forall m, m ∈ errors res -> m ∉ warnings res).
Proof.
  split; [apply errors_warnings_perm|]. unfold errors, warnings.
  split; [apply filter_sublist|]. split; [apply filter_sublist|].
  intros m [_ He]%list_elem_of_In%filter_In [_ Hw]%list_elem_of_In%filter_In.
  unfold is_error in He. unfold is_warning in Hw.
  apply bool_decide_eq_true in He. apply bool_decide_eq_true in Hw. congruence.
Qed.

Lemma validate_recorded (params : parameters) (rules : list rule) (res : ValidationResult) :
  validate C params rules = Ok res ->
  exists per_rule,
    Forall2 (Recorded C params) rules per_rule /\ messages res = concat per_rule.
Proof.
  intros Hres.
  assert (forallb severity_in_enum rules = true) as Hall.
  { rewrite <- validate_returns_iff with (C := C) (params := params). by rewrite Hres. }
  destruct (validate_loop_in_enum C params rules Hall []) as (per_rule & Hloop & Hper).
  unfold validate in Hres. rewrite Hloop in Hres. simpl in Hres.
  injection Hres as <-. by exists per_rule.
Qed.

(** X3. A rule whose expression cannot be evaluated makes the result
    invalid, whatever severity the rule declares. *)
Theorem fault_makes_invalid (params : parameters) (rules : list rule)
    (res : ValidationResult) (r : rule) (exc : string) :
  validate C params rules = Ok res ->
  r ∈ rules ->
  py_eval C (default "True" (r !! "expression")) params = Raised exc ->
  is_valid res = false.
Proof.
  intros Hres Hr Hexc.
  rewrite (validate_is_valid C params rules res Hres).
  apply negb_false_iff, existsb_exists.
  destruct (validate_recorded params rules res Hres) as (per_rule & Hper & ->).
  apply list_elem_of_lookup in Hr as [i Hi].
  destruct (Forall2_lookup_l _ _ _ _ _ Hper Hi) as (added & Hadded & Hrec).
  destruct Hrec as [exc' _|sev H _|H]; try congruence.
  eexists. split.
  - apply in_concat. eexists. split.
    + apply list_elem_of_In. eapply list_elem_of_lookup_2. exact Hadded.
    + by left.
  - reflexivity.
Qed.

(** X4. A rule that fails and declares no severity counts as an error: the
    result is invalid. *)
Theorem missing_severity_is_error (params : parameters) (rules : list rule)
    (res : ValidationResult) (r : rule) :
  validate C params rules = Ok res ->
  r ∈ rules ->
  r !! "severity" = None ->
  py_eval C (default "True" (r !! "expression")) params = Passed false ->
  is_valid res = false.
Proof.
  intros Hres Hr Hsev Hfalse.
  rewrite (validate_is_valid C params rules res Hres).
  apply negb_false_iff, existsb_exists.
  destruct (validate_recorded params rules res Hres) as (per_rule & Hper & ->).
  apply list_elem_of_lookup in Hr as [i Hi].
  destruct (Forall2_lookup_l _ _ _ _ _ Hper Hi) as (added & Hadded & Hrec).
  destruct Hrec as [exc' H|sev _ Hsev'|H]; try congruence.
  unfold declared_severity in Hsev'. rewrite Hsev in Hsev'. simpl in Hsev'.
  injection Hsev' as <-.
  eexists. split.
  - apply in_concat. eexists. split.
    + apply list_elem_of_In. eapply list_elem_of_lookup_2. exact Hadded.
    + by left.
  - reflexivity.
Qed.

Lemma Recorded_short (params : parameters) (r : rule) (added : list ValidationMessage) :
  Recorded C params r added ->
  length added <= 1 /\
  forall m, m ∈ added -> rule_id m = default "UNKNOWN" (r !! "rule_id").
Proof.
  intros [exc _|sev _ _|_]; simpl; (split; [lia|]); intros m Hm.
  - by apply list_elem_of_singleton in Hm as ->.
  - by apply list_elem_of_singleton in Hm as ->.
  - by apply elem_of_nil in Hm.
Qed.

(** X5. A result holds at most one message per rule, and every message
    carries the id of a rule of the list ("UNKNOWN" for a rule without an
    id). *)
Theorem messages_come_from_rules (params : parameters) (rules : list rule)
    (res : ValidationResult) :
  validate C params rules = Ok res ->
  length (messages res) <= length rules /\
  forall m, m ∈ messages res ->
    exists r, r ∈ rules /\ rule_id m = default "UNKNOWN" (r !! "rule_id").
Proof.
  intros Hres.
  destruct (validate_recorded params rules res Hres) as (per_rule & Hper & ->).
  clear Hres. induction Hper as [|r added rules per_rule Hrec Hper [IHlen IHid]]; simpl.
  - split; [lia|]. intros m Hm. by apply elem_of_nil in Hm.
  - destruct (Recorded_short params r added Hrec) as [Hlen Hid].
    rewrite length_app. split; [lia|].
    intros m [Hm|Hm]%elem_of_app.
    + exists r. split; [by left|by apply Hid].
    + destruct (IHid m Hm) as (r' & Hr' & Hm'). exists r'. split; [by right|done].
Qed.

End ValidationMore.

(** ** The increment of revision codes *)

Section IncrementMore.

Lemma is_upper_letter_ord (c : ascii) :
  is_upper_letter c = true -> 65 <= ord c <= 90.
Proof.
  unfold is_upper_letter. intros [H1%Nat.leb_le H2%Nat.leb_le]%andb_prop. lia.
Qed.

Lemma ord_Z_iff (c : ascii) : c = "Z"%char <-> ord c = 90.
Proof.
  split; [by intros ->|]. intros H. rewrite <- (chr_ord c), H. reflexivity.
Qed.

Lemma incr_chars_value (l : list ascii) :
  forallb is_upper_letter l = true ->
  code_value (incr_chars l) = S (code_value l).
Proof.
  induction l as [|c l IH] using rev_ind; [done|].
  rewrite forallb_app. simpl. intros [Hl [Hc%is_upper_letter_ord _]%andb_prop]%andb_prop.
  destruct (decide (c = "Z"%char)) as [->|Hne].
  - rewrite incr_chars_snoc_Z, !code_value_snoc, IH by done.
    change (ord "A") with 65. change (ord "Z") with 90. lia.
  - rewrite incr_chars_snoc, !code_value_snoc by done.
    assert (ord c <> 90) by (by rewrite <- ord_Z_iff).
    rewrite ord_chr by lia. lia.
Qed.

Lemma upper_chars_upper (s : string) :
  forallb is_letter (list_ascii_of_string s) = true ->
  forallb is_upper_letter (map upper_char (list_ascii_of_string s)) = true.
Proof.
  intros Hs. rewrite forallb_forall in Hs. apply forallb_forall.
  intros c (c0 & <- & Hc0)%in_map_iff. apply upper_char_letter. by apply Hs.
Qed.

Lemma increment_value (s : string) :
  forallb is_letter (list_ascii_of_string s) = true ->
  code_value (list_ascii_of_string (_increment_revision_code s)) =
  S (code_value (list_ascii_of_string (upper s))).
Proof.
  intros Hs. rewrite increment_as_chars. unfold upper.
  rewrite !list_ascii_of_string_of_list_ascii.
  apply incr_chars_value. by apply upper_chars_upper.
Qed.

(** X6. On a code made of letters the increment is the successor: read as
    a number with the digits A = 1, ..., Z = 26, the result stands for one
    more than the code. *)
Theorem increment_is_successor (s : string) :
  forallb is_letter (list_ascii_of_string s) = true ->
  code_value (list_ascii_of_string (_increment_revision_code s)) =
  S (code_value (list_ascii_of_string (upper s))).
Proof.
  intros Hs. rewrite increment_as_chars. unfold upper.
  rewrite !list_ascii_of_string_of_list_ascii.
  apply incr_chars_value. by apply upper_chars_upper.
Qed.

Lemma code_digits_of_value (l : list ascii) :
  forallb is_upper_letter l = true ->
  code_digits (code_value l) (code_value l) = l.
Proof.
  induction l as [|c l IH] using rev_ind; [done|].
  rewrite forallb_app. simpl. intros [Hl [Hc%is_upper_letter_ord _]%andb_prop]%andb_prop.
  rewrite code_value_snoc.
  replace (26 * code_value l + (ord c - 64)) with (S (26 * code_value l + (ord c - 65)))
    by lia.
  rewrite code_digits_step.
  assert ((26 * code_value l + (ord c - 65)) / 26 = code_value l) as ->
    by (symmetry; apply (Nat.div_unique _ 26 _ (ord c - 65)); lia).
  assert ((26 * code_value l + (ord c - 65)) mod 26 = ord c - 65) as ->
    by (symmetry; apply (Nat.mod_unique _ 26 (code_value l)); lia).
  rewrite IH by done. unfold letter.
  replace (65 + (ord c - 65)) with (ord c) by lia. by rewrite chr_ord.
Qed.

Lemma code_value_inj (l k : list ascii) :
  forallb is_upper_letter l = true -> forallb is_upper_letter k = true ->
  code_value l = code_value k -> l = k.
Proof.
  intros Hl Hk H. rewrite <- (code_digits_of_value l Hl), <- (code_digits_of_value k Hk).
  by rewrite H.
Qed.

(** X7. Two codes made of letters have the same increment only when they
    are the same code up to case. *)
Theorem increment_injective (s t : string) :
  forallb is_letter (list_ascii_of_string s) = true ->
  forallb is_letter (list_ascii_of_string t) = true ->
  _increment_revision_code s = _increment_revision_code t ->
  upper s = upper t.
Proof.
  intros Hs Ht H.
  pose proof (increment_value s Hs) as Vs.
  pose proof (increment_value t Ht) as Vt.
  rewrite H, Vt in Vs. injection Vs as Vs. unfold upper in *.
  rewrite !list_ascii_of_string_of_list_ascii in Vs. f_equal.
  symmetry. apply code_value_inj; [by apply upper_chars_upper..|done].
Qed.





End IncrementMore.

Lemma increment_is_successor_witness :
  forallb is_letter (list_ascii_of_string "aZ") = true /\
  code_value (list_ascii_of_string (_increment_revision_code "aZ")) =
  S (code_value (list_ascii_of_string (upper "aZ"))).
Proof.
  split; [vm_compute; reflexivity|].
  apply (increment_is_successor "aZ"). vm_compute; reflexivity.
Defined.

Lemma increment_injective_witness :
  (forallb is_letter (list_ascii_of_string "az") = true /\
   forallb is_letter (list_ascii_of_string "AZ") = true /\
   _increment_revision_code "az" = _increment_revision_code "AZ") /\
  upper "az" = upper "AZ".
Proof.
  split; [repeat split; vm_compute; reflexivity|].
  apply (increment_injective "az" "AZ"); vm_compute; reflexivity.
Defined.

(** ** Reads of the revision store *)

Section ReadsMore.

Import RevisionRepository PieceController RevisionReads.






Lemma insert_by_id_desc_perm (r : Revision) (l : list Revision) :
  insert_by_id_desc r l ≡ₚ r :: l.
Proof.
  induction l as [|x l IH]; simpl; [done|].
  destruct (rev_id x <=? rev_id r); [done|]. rewrite IH. apply Permutation_swap.
Qed.

Lemma order_by_id_desc_perm (l : list Revision) : order_by_id_desc l ≡ₚ l.
Proof.
  induction l as [|r l IH]; simpl; [done|].
  rewrite insert_by_id_desc_perm. by rewrite IH.
Qed.

Lemma order_by_id_desc_head (l : list Revision) :
  match order_by_id_desc l with
  | [] => l = []
  | r :: _ => r ∈ l /\ forall x, x ∈ l -> rev_id x <= rev_id r
  end.
Proof.
  induction l as [|a l IH]; [done|].
  change (order_by_id_desc (a :: l)) with (insert_by_id_desc a (order_by_id_desc l)).
  destruct (order_by_id_desc l) as [|r rest]; simpl.
  - subst l. split; [by left|]. by intros x ->%list_elem_of_singleton.
  - destruct IH as [Hr Hmax]. destruct (rev_id r <=? rev_id a) eqn:E.
    + apply Nat.leb_le in E. split; [by left|].
      intros x [->|Hx]%elem_of_cons; [done|]. specialize (Hmax x Hx). lia.
    + apply Nat.leb_gt in E. split; [by right|].
      intros x [->|Hx]%elem_of_cons; [lia|]. by apply Hmax.
Qed.

(** X10. [get_latest_for_design] returns nothing exactly when the design
    has no revision, and otherwise the revision of the design with the
    largest id, whatever the timestamps are. *)
Theorem get_latest_for_design_max (db : database) (d : nat) :
  (get_latest_for_design db d = None <-> revisions_of db d = []) /\
  (forall r, get_latest_for_design db d = Some r ->
     r ∈ revisions_of db d /\
     forall x, x ∈ revisions_of db d -> rev_id x <= rev_id r).
Proof.
  unfold get_latest_for_design.
  pose proof (order_by_id_desc_head (revisions_of db d)) as H.
  pose proof (order_by_id_desc_perm (revisions_of db d)) as Hperm.
  destruct (order_by_id_desc (revisions_of db d)) as [|r rest]; simpl.
  - split; [done|]. by intros r [=].
  - split.
    + split; [done|]. intros E. rewrite E in Hperm. symmetry in Hperm.
      by apply Permutation_nil_cons in Hperm.
    + by intros r' [= <-].
Qed.

Lemma order_by_id_desc_snoc (l : list Revision) (x : Revision) :
  (forall r, r ∈ l -> rev_id r < rev_id x) ->
  order_by_id_desc (l ++ [x]) = x :: order_by_id_desc l.
Proof.
  induction l as [|a l IH]; intros Hlt; [done|].
  change (order_by_id_desc ((a :: l) ++ [x]))
    with (insert_by_id_desc a (order_by_id_desc (l ++ [x]))).
  rewrite IH by (intros r Hr; apply Hlt; by right). simpl.
  specialize (Hlt a ltac:(by left)).
  destruct (rev_id x <=? rev_id a) eqn:E; [apply Nat.leb_le in E; lia|done].
Qed.

Lemma find_snoc_other {A : Type} (P : A -> bool) (l : list A) (x : A) :
  P x = false -> List.find P (l ++ [x]) = List.find P l.
Proof.
  intros Hx. induction l as [|a l IH]; simpl; [by rewrite Hx|].
  by destruct (P a).
Qed.

(** X11. After a successful [create] the new revision is what the reads
    return: [get_by_id] finds it under its id and finds every other id as
    before, it is the latest revision of its design, and it is the last of
    the design's revisions in creation order, the other designs keeping
    theirs. *)
Theorem create_then_read (dumps : parameters -> string) (now : string) (db db' : database)
    (d : nat) (params : parameters) (desc by_ : string) (rev : Revision) :
  create dumps now db d params desc by_ = (Ok rev, db') ->
  get_by_id db' (rev_id rev) = Some rev /\
  (forall other, other <> rev_id rev -> get_by_id db' other = get_by_id db other) /\
  get_latest_for_design db' d = Some rev /\
  revisions_of db' d = revisions_of db d ++ [rev] /\
  (forall d', d' <> d -> revisions_of db' d' = revisions_of db d').
Proof.
  intros Hc. apply create_ok in Hc as (-> & Hrev & _).
  assert (rev_id rev = next_rowid (revisions db)) as Hid by (by rewrite Hrev).
  assert (design_id rev = d) as Hd by (by rewrite Hrev).
  assert (forall r, r ∈ revisions db -> rev_id r < rev_id rev) as Hfresh.
  { intros r Hr. rewrite Hid. by apply next_rowid_fresh. }
  split; [by apply get_by_id_last|]. split; [|split; [|split]].
  - intros other Hne. unfold get_by_id. simpl. apply find_snoc_other.
    apply Nat.eqb_neq. congruence.
  - unfold get_latest_for_design.
    rewrite revisions_of_app, with_revisions_id, Hd, Nat.eqb_refl.
    rewrite order_by_id_desc_snoc; [done|].
    intros r [Hr _]%list_elem_of_In%filter_In. apply Hfresh. by apply list_elem_of_In.
  - by rewrite revisions_of_app, with_revisions_id, Hd, Nat.eqb_refl.
  - intros d' Hne. rewrite revisions_of_app, with_revisions_id, Hd.
    destruct (d =? d') eqn:E; [apply Nat.eqb_eq in E; congruence|]. by rewrite app_nil_r.
Qed.

(** X12. [create] for a design that is not in the store, or when the
    allocated code is already a code of the design, raises [IntegrityError]
    and leaves the store as it was; for a design in the store without
    revisions it succeeds with the code "A". *)
Theorem create_edge_cases (dumps : parameters -> string) (now : string) (db : database)
    (d : nat) (params : parameters) (desc by_ : string) :
  (DesignRepository.get_by_id db d = None ->
   create dumps now db d params desc by_ =
   (Raise (IntegrityError "FOREIGN KEY constraint failed"), db)) /\
  (forall design r,
     DesignRepository.get_by_id db d = Some design ->
     r ∈ revisions_of db d ->
     revision_code r = get_next_revision_code db d ->
     create dumps now db d params desc by_ =
     (Raise (IntegrityError "uq_revisions_design_rev"), db)) /\
  (forall design,
     DesignRepository.get_by_id db d = Some design ->
     revisions_of db d = [] ->
     exists rev,
       create dumps now db d params desc by_ =
       (Ok rev, with_revisions db (revisions db ++ [rev])) /\
       revision_code rev = "A").
Proof.
  split; [|split].
  - intros Hnone. unfold create, flush_insert. simpl.
    destruct (existsb _ (designs db)) eqn:E; [|done].
    apply existsb_exists in E as (x & Hin & Hx).
    unfold DesignRepository.get_by_id in Hnone.
    by rewrite (find_none _ _ Hnone x Hin) in Hx.
  - intros design r Hdes Hr Hcode. unfold create, flush_insert. simpl.
    rewrite (get_by_id_exists db d design Hdes). simpl.
    destruct (existsb _ (revisions db)) eqn:E; [done|].
    apply not_true_iff_false in E. exfalso. apply E.
    apply existsb_exists. exists r.
    unfold revisions_of in Hr. apply list_elem_of_In, filter_In in Hr as [Hin Hd].
    split; [done|]. rewrite Hd. simpl. by apply String.eqb_eq.
  - intros design Hdes Hnone.
    destruct (create_succeeds dumps now db d params desc by_) as (rev & db' & Hc).
    { by apply (get_by_id_exists db d design). }
    { intros r Hr. rewrite Hnone in Hr. by apply elem_of_nil in Hr. }
    exists rev. pose proof Hc as (-> & Hrev & _)%create_ok. split; [done|].
    rewrite Hrev. simpl.
    destruct (get_next_revision_code_cases db d) as [[_ ->]|(r & Hr & _)]; [done|].
    rewrite Hnone in Hr. by apply elem_of_nil in Hr.
Qed.

Lemma increasing_rev_id_cons (a : Revision) (l : list Revision) :
  increasing_rev_id (a :: l) = true ->
  increasing_rev_id l = true /\ forall x, x ∈ l -> rev_id a < rev_id x.
Proof.
  revert a. induction l as [|y l IH]; intros a H.
  - split; [done|]. intros x Hx. by apply elem_of_nil in Hx.
  - simpl in H. apply andb_prop in H as [Hay%Nat.ltb_lt Hl].
    split; [done|]. destruct (IH y Hl) as [_ Hy].
    intros x [->|Hx]%elem_of_cons; [done|]. specialize (Hy x Hx). lia.
Qed.

Lemma insert_by_id_desc_least (a : Revision) (k : list Revision) :
  (forall x, x ∈ k -> rev_id a < rev_id x) ->
  insert_by_id_desc a k = k ++ [a].
Proof.
  induction k as [|x k IH]; intros Hlt; simpl; [done|].
  specialize (Hlt x ltac:(by left)) as Hx.
  destruct (rev_id x <=? rev_id a) eqn:E; [apply Nat.leb_le in E; lia|].
  rewrite IH; [done|]. intros y Hy. apply Hlt. by right.
Qed.

Lemma order_by_id_desc_increasing (l : list Revision) :
  increasing_rev_id l = true -> order_by_id_desc l = reverse l.
Proof.
  induction l as [|a l IH]; intros H; [done|].
  apply increasing_rev_id_cons in H as [Hl Ha].
  change (order_by_id_desc (a :: l)) with (insert_by_id_desc a (order_by_id_desc l)).
  rewrite IH, reverse_cons by done. apply insert_by_id_desc_least.
  intros x Hx. apply Ha. exact (proj1 (elem_of_reverse x l) Hx).
Qed.

(** X13. For a design whose revisions carry ids and timestamps that both
    grow with creation, [Design.latest_revision] (the last by timestamp) and
    [get_latest_for_design] (the largest id) are the same revision, the one
    created last. *)
Theorem latest_revision_agrees (db : database) (design : Design) :
  nondecreasing_generated_at (revisions_of db (d_id design)) = true ->
  increasing_rev_id (revisions_of db (d_id design)) = true ->
  latest_revision db design = get_latest_for_design db (d_id design) /\
  latest_revision db design = last (revisions_of db (d_id design)).
Proof.
  intros Hts Hids. unfold latest_revision, get_latest_for_design, get_by_design.
  rewrite (order_by_generated_at_sorted _ Hts), (order_by_id_desc_increasing _ Hids).
  split; [|done]. by rewrite head_reverse.
Qed.

End ReadsMore.

(** ** Updates of a revision, one after another *)

Section UpdatesMore.

Import RevisionRepository.

Lemma save_save (db : database) (a b : Revision) :
  rev_id a = rev_id b -> save (save db a) b = save db b.
Proof.
  intros Hab. unfold save, with_revisions. simpl. f_equal.
  rewrite map_map. apply map_ext. intros r.
  destruct (rev_id r =? rev_id a) eqn:E.
  - apply Nat.eqb_eq in E. by rewrite Hab, Nat.eqb_refl, <- Hab, E, Nat.eqb_refl.
  - by rewrite <- Hab, E.
Qed.

Lemma update_output_paths_found (db : database) (rid : nat)
    (paths : gmap string (option string)) (rev : Revision) :
  get_by_id db rid = Some rev ->
  update_output_paths db rid paths =
  (Some (set_paths rev (paths_get paths "fcstd") (paths_get paths "step")
           (paths_get paths "dxf") (paths_get paths "pdf")
           (paths_get paths "bom_xlsx") (paths_get paths "bom_pdf")),
   save db (set_paths rev (paths_get paths "fcstd") (paths_get paths "step")
              (paths_get paths "dxf") (paths_get paths "pdf")
              (paths_get paths "bom_xlsx") (paths_get paths "bom_pdf"))).
Proof. intros H. unfold update_output_paths. by rewrite H. Qed.

(** X14. Changing the ECO status and setting the output paths of a
    revision can be done in either order: the store is the same at the
    end. *)
Theorem updates_commute (db : database) (rid : nat) (status : string)
    (eco_number eco_reason : option string) (paths : gmap string (option string)) :
  snd (update_output_paths
         (snd (update_eco_status db rid status eco_number eco_reason)) rid paths) =
  snd (update_eco_status
         (snd (update_output_paths db rid paths)) rid status eco_number eco_reason).
Proof.
  unfold update_eco_status. destruct (allowed_eco_status status); simpl; [|done].
  destruct (get_by_id db rid) as [rev|] eqn:Hrev.
  - pose proof (get_by_id_rev_id db rid rev Hrev) as Hid. subst rid. simpl.
    rewrite (update_output_paths_found db (rev_id rev) paths rev Hrev). simpl.
    rewrite (update_output_paths_found _ (rev_id rev) paths _
               (save_get_same db rev (set_eco rev _ _ _) Hrev)).
    rewrite (save_get_same db rev (set_paths rev _ _ _ _ _ _) Hrev). simpl.
    rewrite !save_save by done. done.
  - simpl. unfold update_output_paths. rewrite Hrev. simpl. by rewrite Hrev.
Qed.

(** X15. Setting the output paths twice leaves only the second setting:
    the returned revision and the store are those of the second call
    alone. *)
Theorem update_output_paths_last_wins (db : database) (rid : nat)
    (paths1 paths2 : gmap string (option string)) :
  update_output_paths (snd (update_output_paths db rid paths1)) rid paths2 =
  update_output_paths db rid paths2.
Proof.
  destruct (get_by_id db rid) as [rev|] eqn:Hrev.
  - pose proof (get_by_id_rev_id db rid rev Hrev) as Hid. subst rid.
    rewrite (update_output_paths_found db (rev_id rev) paths1 rev Hrev). simpl.
    rewrite (update_output_paths_found _ (rev_id rev) paths2 _
               (save_get_same db rev (set_paths rev _ _ _ _ _ _) Hrev)).
    rewrite (update_output_paths_found db (rev_id rev) paths2 rev Hrev).
    rewrite save_save by done. done.
  - unfold update_output_paths. rewrite Hrev. simpl. by rewrite Hrev.
Qed.

(** X16. Two changes of ECO status in a row amount to one: the second
    status, with each of number and reason taken from the second call when
    it supplies one and from the first otherwise. A number or reason that
    is set is never cleared by a change of status. *)
Theorem update_eco_status_twice (db : database) (rid : nat) (status1 status2 : string)
    (number1 reason1 number2 reason2 : option string) :
  allowed_eco_status status1 = true ->
  allowed_eco_status status2 = true ->
  update_eco_status (snd (update_eco_status db rid status1 number1 reason1))
    rid status2 number2 reason2 =
  update_eco_status db rid status2 (or_else number2 number1) (or_else reason2 reason1) /\
  (forall rev rev' db',
     get_by_id db rid = Some rev ->
     update_eco_status db rid status1 number1 reason1 = (Ok (Some rev'), db') ->
     (is_Some (Models.eco_number rev) -> is_Some (Models.eco_number rev')) /\
     (is_Some (Models.eco_reason rev) -> is_Some (Models.eco_reason rev'))).
Proof.
  intros H1 H2. unfold update_eco_status. rewrite H1, H2. simpl. split.
  - destruct (get_by_id db rid) as [rev|] eqn:Hrev; simpl; [|by rewrite Hrev].
    pose proof (get_by_id_rev_id db rid rev Hrev) as Hid. subst rid.
    rewrite (save_get_same db rev (set_eco rev _ _ _) Hrev).
    rewrite save_save by done.
    by destruct number1, number2, reason1, reason2.
  - intros rev rev' db' Hrev. rewrite Hrev. intros [= <- _]. simpl.
    split; intros [x Hx]; rewrite Hx.
    + by destruct number1.
    + by destruct reason1.
Qed.

Lemma same_key_filter (d : nat) (l l' : list Revision) :
  Forall2 same_key l l' ->
  Forall2 same_key (List.filter (fun r => design_id r =? d) l)
                   (List.filter (fun r => design_id r =? d) l').
Proof.
  induction 1 as [|r r' l l' (Hd & Hc & Ht) _ IH]; simpl; [constructor|].
  rewrite <- Hd. destruct (design_id r =? d); [by constructor|done].
Qed.

Lemma same_key_insert (r r' : Revision) (l l' : list Revision) :
  same_key r r' -> Forall2 same_key l l' ->
  Forall2 same_key (insert_by_generated_at r l) (insert_by_generated_at r' l').
Proof.
  intros Hr. induction 1 as [|x x' l l' Hx Hl IH]; simpl;
    [constructor; [done|constructor]|].
  pose proof Hr as (_ & _ & Hrt). pose proof Hx as (_ & _ & Hxt).
  rewrite <- Hrt, <- Hxt.
  destruct (String.leb _ _); constructor; try done. by constructor.
Qed.

Lemma same_key_order (l l' : list Revision) :
  Forall2 same_key l l' ->
  Forall2 same_key (order_by_generated_at l) (order_by_generated_at l').
Proof.
  induction 1 as [|r r' l l' Hr _ IH]; simpl; [constructor|].
  by apply same_key_insert.
Qed.

Lemma same_key_codes (l l' : list Revision) :
  Forall2 same_key l l' -> map revision_code l = map revision_code l'.
Proof.
  induction 1 as [|r r' l l' (_ & Hc & _) _ IH]; simpl; [done|]. by rewrite Hc, IH.
Qed.

Lemma same_key_refl (l : list Revision) : Forall2 same_key l l.
Proof. induction l; constructor; [by repeat split|done]. Qed.

Lemma save_same_key (db : database) (old new : Revision) :
  NoDup (map rev_id (revisions db)) ->
  get_by_id db (rev_id new) = Some old ->
  same_key old new ->
  Forall2 same_key (revisions db) (revisions (save db new)).
Proof.
  unfold get_by_id, save. simpl. intros Hnd Hfind Hkey.
  induction (revisions db) as [|x l IH]; simpl; [constructor|].
  simpl in Hfind. apply NoDup_cons in Hnd as [Hx Hnd].
  destruct (rev_id x =? rev_id new) eqn:E.
  - injection Hfind as ->. constructor; [done|].
    apply Nat.eqb_eq in E.
    replace (map (fun r => if rev_id r =? rev_id new then new else r) l) with l;
      [apply same_key_refl|].
    clear IH Hnd. induction l as [|y l IHl]; simpl; [done|].
    destruct (rev_id y =? rev_id new) eqn:E'.
    + exfalso. apply Hx. apply Nat.eqb_eq in E'. rewrite E, <- E'. by left.
    + f_equal. apply IHl. intros Hin. apply Hx. by right.
  - constructor; [by repeat split|]. by apply IH.
Qed.

Lemma same_key_last (l l' : list Revision) :
  Forall2 same_key l l' ->
  match last l, last l' with
  | Some a, Some b => same_key a b
  | None, None => True
  | _, _ => False
  end.
Proof.
  induction 1 as [|r r' l l' Hr Hl IH]; [done|].
  destruct Hl as [|x x' l l' Hx Hl]; [done|].
  by rewrite !last_cons_cons.
Qed.

Lemma same_key_allocation (db db' : database) (d : nat) :
  Forall2 same_key (revisions db) (revisions db') ->
  map revision_code (get_by_design db' d) = map revision_code (get_by_design db d) /\
  get_next_revision_code db' d = get_next_revision_code db d.
Proof.
  intros H. apply (same_key_filter d) in H. apply same_key_order in H.
  fold (revisions_of db d) (revisions_of db' d) in H.
  fold (get_by_design db d) (get_by_design db' d) in H.
  split; [symmetry; by apply same_key_codes|].
  unfold get_next_revision_code.
  apply same_key_last in H.
  destruct (last (get_by_design db d)), (last (get_by_design db' d)); try done.
  by destruct H as (_ & -> & _).
Qed.

(** X17. In a store with unique revision ids, neither a change of ECO
    status nor a setting of output paths disturbs the numbering: for every
    design the codes by [get_by_design] and the next code to allocate are
    as before. *)
Theorem updates_keep_allocation (db : database) (rid : nat) (status : string)
    (eco_number eco_reason : option string) (paths : gmap string (option string)) (d : nat) :
  NoDup (map rev_id (revisions db)) ->
  (map revision_code
     (get_by_design (snd (update_eco_status db rid status eco_number eco_reason)) d) =
   map revision_code (get_by_design db d) /\
   get_next_revision_code (snd (update_eco_status db rid status eco_number eco_reason)) d =
   get_next_revision_code db d) /\
  (map revision_code (get_by_design (snd (update_output_paths db rid paths)) d) =
   map revision_code (get_by_design db d) /\
   get_next_revision_code (snd (update_output_paths db rid paths)) d =
   get_next_revision_code db d).
Proof.
  intros Hnd. split.
  - unfold update_eco_status. destruct (allowed_eco_status status); simpl; [|done].
    destruct (get_by_id db rid) as [rev|] eqn:Hrev; simpl; [|done].
    pose proof (get_by_id_rev_id db rid rev Hrev) as Hid. subst rid.
    apply same_key_allocation.
    by apply (save_same_key db rev (set_eco rev _ _ _)).
  - unfold update_output_paths.
    destruct (get_by_id db rid) as [rev|] eqn:Hrev; simpl; [|done].
    pose proof (get_by_id_rev_id db rid rev Hrev) as Hid. subst rid.
    apply same_key_allocation.
    by apply (save_same_key db rev (set_paths rev _ _ _ _ _ _)).
Qed.

End UpdatesMore.

(** ** The generation pipeline as a whole *)

Section GenerateMore.

Import RevisionRepository PieceController.

Variable C : Collaborators.

Lemma create_ok_fk (dumps : parameters -> string) (now : string) (db : database)
    (d : nat) (params : parameters) (desc by_ : string) (rev : Revision) (db' : database) :
  create dumps now db d params desc by_ = (Ok rev, db') ->
  existsb (fun x => d_id x =? d) (designs db) = true.
Proof.
  unfold create, flush_insert. simpl.
  by destruct (existsb (fun x => d_id x =? d) (designs db)).
Qed.

(** Whether [create] raises, and what, depends on the store and the design
    only. *)
Lemma create_raise_any (dumps : parameters -> string) (now now' : string) (db : database)
    (d : nat) (params params' : parameters) (desc desc' by_ : string)
    (e : exn) (db' : database) :
  create dumps now db d params desc by_ = (Raise e, db') ->
  create dumps now' db d params' desc' by_ = (Raise e, db).
Proof.
  unfold create, flush_insert. simpl.
  destruct (negb (existsb _ (designs db))); [by intros [= <- _]|].
  destruct (existsb _ (revisions db)); [by intros [= <- _]|]. done.
Qed.


Lemma validate_raise_value (params : parameters) (rules : list rule) (e : exn) :
  validate C params rules = Raise e ->
  exists r, r ∈ rules /\ severity_in_enum r = false /\
            e = ValueError (declared_severity r).
Proof.
  intros H. pose proof (validate_returns_iff C params rules) as Hret.
  rewrite H in Hret. simpl in Hret. symmetry in Hret.
  destruct (validate_loop_raises C params rules Hret []) as (r & Hin & Hbad & Hr).
  exists r. split; [done|]. split; [done|].
  unfold validate in H. rewrite Hr in H. simpl in H. congruence.
Qed.

Lemma valid_no_errors (params : parameters) (rules : list rule) (res : ValidationResult) :
  validate C params rules = Ok res -> is_valid res = true -> errors res = [].
Proof.
  intros Hv Hvalid. rewrite (validate_is_valid C _ _ _ Hv) in Hvalid.
  rewrite existsb_is_error_filter in Hvalid. apply Nat.eqb_eq in Hvalid.
  unfold errors. by destruct (List.filter is_error (messages res)).
Qed.


(** X19. When [generate] answers with success, the engine reported success
    and the row of this attempt holds the engine's FCStd and STEP paths;
    its other four paths are null, [validation_passed] is 1 and its status
    is draft. The response has no errors, carries the row's id and code,
    the output location and the engine's elapsed time. *)
Theorem generate_success_records_paths (now : string)
    (engine : engine_call -> GenerationResult) (request : GenerationRequest)
    (w w' : world) (resp : GenerationResponse) :
  generate C now engine request w = (Ok resp, w') ->
  success resp = true ->
  exists rev call,
    revisions (w_db w') = revisions (w_db w) ++ [rev] /\
    w_engine_calls w' = w_engine_calls w ++ [call] /\
    cad_success (engine call) = true /\
    get_by_id (w_db w') (rev_id rev) = Some rev /\
    fcstd_path rev = cad_fcstd_path (engine call) /\
    step_path rev = cad_step_path (engine call) /\
    (dxf_path rev = None /\ pdf_path rev = None /\
     bom_xlsx_path rev = None /\ bom_pdf_path rev = None) /\
    validation_passed rev = 1%Z /\
    eco_status rev = "draft" /\
    revision_id resp = Some (rev_id rev) /\
    resp_revision_code resp = Some (revision_code rev) /\
    output_dir resp = Some (call_output_dir call) /\
    resp_errors resp = [] /\
    elapsed_seconds resp = cad_elapsed_seconds (engine call).
Proof.
  intros Hgen Hsucc.
  destruct (generate_cases C now engine request w)
    as [[_ Hresp]|(design & piece_type & validation & rev0 & db1 & Hd & Hp & Hv & Hvalid & Hc)].
  { rewrite Hgen in Hresp. destruct (Hresp resp eq_refl) as (Hf & _). congruence. }
  rewrite (generate_created C _ _ _ _ _ _ _ _ _ Hd Hp Hv Hvalid Hc) in Hgen.
  injection Hgen as <- <-. simpl in Hsucc.
  pose proof Hc as (_ & Hrev0 & _)%create_ok.
  set (rev := set_validation rev0 1%Z (warnings_json C (map message (warnings validation)))).
  assert (forall r, r ∈ revisions (w_db w) ->
                    rev_id r < rev_id (reconciled rev (engine
                      (engine_call_for C piece_type design request (revision_code rev0)))))
    as Hfresh.
  { intros r Hr. unfold reconciled. rewrite Hsucc. simpl. rewrite Hrev0. simpl.
    by apply next_rowid_fresh. }
  eexists _, _. split; [done|]. split; [done|]. split; [done|].
  split; [by apply get_by_id_last|].
  unfold reconciled. rewrite Hsucc. simpl. rewrite Hrev0. simpl. done.
Qed.

(** X20. When [generate] records a revision, validation returned a result
    without errors; the response's warnings are the validation warnings
    followed by the engine's, and the row's stored warnings are null when
    validation gave no warning and the JSON list of the warning messages
    otherwise. *)
Theorem generate_warnings (now : string)
    (engine : engine_call -> GenerationResult) (request : GenerationRequest)
    (w w' : world) (resp : GenerationResponse) (rid : nat) :
  generate C now engine request w = (Ok resp, w') ->
  revision_id resp = Some rid ->
  exists design piece_type validation rev call,
    DesignRepository.get_by_id (w_db w) (req_design_id request) = Some design /\
    get_piece_type (w_db w) (d_piece_type_id design) = Some piece_type /\
    validate C (req_parameters request)
      (get_validation_rules (catalog_pieces C) (pt_code piece_type)) = Ok validation /\
    errors validation = [] /\
    last (revisions (w_db w')) = Some rev /\
    rev_id rev = rid /\
    last (w_engine_calls w') = Some call /\
    resp_warnings resp =
      map message (warnings validation) ++ cad_warnings (engine call) /\
    (warnings validation = [] -> validation_warnings_json rev = None) /\
    (warnings validation <> [] ->
     validation_warnings_json rev =
       Some (json_dumps_list C (map message (warnings validation)))).
Proof.
  intros Hgen Hrid.
  destruct (generate_cases C now engine request w)
    as [[_ Hresp]|(design & piece_type & validation & rev0 & db1 & Hd & Hp & Hv & Hvalid & Hc)].
  { rewrite Hgen in Hresp. destruct (Hresp resp eq_refl) as (_ & Hn & _). congruence. }
  rewrite (generate_created C _ _ _ _ _ _ _ _ _ Hd Hp Hv Hvalid Hc) in Hgen.
  injection Hgen as <- <-. simpl in Hrid. injection Hrid as <-.
  exists design, piece_type, validation. eexists _, _.
  split; [done|]. split; [done|]. split; [done|].
  split; [by apply (valid_no_errors _ _ _ Hv)|].
  simpl. rewrite !last_snoc.
  split; [done|]. split; [unfold reconciled; by destruct (cad_success _)|].
  split; [done|]. split; [done|].
  unfold reconciled.
  split.
  - intros ->. by destruct (cad_success _).
  - intros Hne. destruct (warnings validation) as [|m l] eqn:E; [done|].
    by destruct (cad_success _).
Qed.

(** X21. [generate] keeps the constraints of the [revisions] table: unique
    ids, unique (design, code) pairs, a status among the allowed ones and
    an existing design for every row. *)
Theorem generate_keeps_constraints (now : string)
    (engine : engine_call -> GenerationResult) (request : GenerationRequest) (w : world) :
  constraints_hold (w_db w) ->
  constraints_hold (w_db (snd (generate C now engine request w))).
Proof.
  intros (Hids & Hpairs & Hrows).
  destruct (generate_cases C now engine request w)
    as [[Hw _]|(design & piece_type & validation & rev0 & db1 & Hd & Hp & Hv & Hvalid & Hc)].
  { by rewrite Hw. }
  rewrite (generate_created C _ _ _ _ _ _ _ _ _ Hd Hp Hv Hvalid Hc). simpl.
  pose proof (create_ok_fk _ _ _ _ _ _ _ _ _ Hc) as Hfk.
  pose proof Hc as (_ & Hrev0 & Hnew)%create_ok.
  set (row := reconciled _ _).
  assert (rev_id row = next_rowid (revisions (w_db w)) /\
          design_id row = req_design_id request /\
          revision_code row = revision_code rev0 /\
          eco_status row = "draft") as (Hid & Hdes & Hcode & Hst).
  { unfold row, reconciled. destruct (cad_success _); simpl; by rewrite Hrev0. }
  unfold constraints_hold. simpl. rewrite !map_app. simpl. split; [|split].
  - apply NoDup_app. split; [done|]. split; [|apply NoDup_singleton].
    intros x Hx ->%list_elem_of_singleton.
    apply list_elem_of_fmap in Hx as (r & Hr & Hin).
    apply next_rowid_fresh in Hin. lia.
  - apply NoDup_app. split; [done|]. split; [|apply NoDup_singleton].
    intros x Hx ->%list_elem_of_singleton.
    apply list_elem_of_fmap in Hx as (r & Hr & Hin).
    injection Hr as Hr1 Hr2.
    apply (Hnew r); [|congruence].
    unfold revisions_of. apply list_elem_of_In, filter_In.
    split; [by apply list_elem_of_In|]. apply Nat.eqb_eq. congruence.
  - apply Forall_app. split; [done|]. apply Forall_singleton.
    rewrite Hst, Hdes. done.
Qed.

(** X22. When the design and its piece type resolve and a rule of the
    piece in the catalog declares a severity outside the enumeration,
    [generate] raises the [ValueError] of such a rule whatever the
    parameters are, and nothing is changed. *)
Theorem generate_raises_on_unknown_severity (now : string)
    (engine : engine_call -> GenerationResult) (request : GenerationRequest) (w : world)
    (design : Design) (piece_type : PieceType) (r : rule) :
  DesignRepository.get_by_id (w_db w) (req_design_id request) = Some design ->
  get_piece_type (w_db w) (d_piece_type_id design) = Some piece_type ->
  r ∈ get_validation_rules (catalog_pieces C) (pt_code piece_type) ->
  severity_in_enum r = false ->
  exists r',
    r' ∈ get_validation_rules (catalog_pieces C) (pt_code piece_type) /\
    severity_in_enum r' = false /\
    generate C now engine request w = (Raise (ValueError (declared_severity r')), w).
Proof.
  intros Hd Hp Hin Hbad.
  assert (forallb severity_in_enum
            (get_validation_rules (catalog_pieces C) (pt_code piece_type)) = false) as Hall.
  { apply not_true_is_false. intros Hall.
    rewrite forallb_forall in Hall.
    apply list_elem_of_In in Hin. specialize (Hall r Hin). congruence. }
  destruct (validate_loop_raises C (req_parameters request) _ Hall [])
    as (r' & Hin' & Hbad' & Hr').
  exists r'. split; [done|]. split; [done|].
  unfold generate. rewrite Hd, Hp. unfold validate. rewrite Hr'. done.
Qed.

(** X23. Once [generate] has raised an integrity error for a design, no
    request for that design can record a revision while the store stays as
    it is: whatever the clock, the engine and the parameters, an attempt
    either raises or answers without a revision, and changes nothing. *)
Theorem generate_integrity_error_persists (now : string)
    (engine : engine_call -> GenerationResult) (request : GenerationRequest)
    (w w' : world) (c : string) :
  generate C now engine request w = (Raise (IntegrityError c), w') ->
  w' = w /\
  forall now' engine' request',
    req_design_id request' = req_design_id request ->
    snd (generate C now' engine' request' w) = w /\
    forall resp, fst (generate C now' engine' request' w) = Ok resp ->
                 revision_id resp = None.
Proof.
  intros Hgen.
  destruct (generate_cases C now engine request w)
    as [[Hw _]|(design & piece_type & validation & rev0 & db1 & Hd & Hp & Hv & Hvalid & Hc)].
  2:{ rewrite (generate_created C _ _ _ _ _ _ _ _ _ Hd Hp Hv Hvalid Hc) in Hgen. done. }
  rewrite Hgen in Hw. simpl in Hw. split; [done|]. subst w'.
  intros now' engine' request' Hsame.
  destruct (generate_cases C now' engine' request' w)
    as [[Hw' Hresp']|(design' & piece_type' & validation' & rev0' & db1' &
                      Hd' & Hp' & Hv' & Hvalid' & Hc')].
  { split; [done|]. intros resp Hr. by apply Hresp'. }
  exfalso. rewrite Hsame in Hd', Hc'.
  unfold generate in Hgen. rewrite Hd' in Hgen. rewrite Hp' in Hgen.
  destruct (validate C (req_parameters request) _) as [validation|e] eqn:Hv.
  2:{ apply validate_raise_value in Hv as (r & _ & _ & ->). congruence. }
  destruct (is_valid validation); simpl in Hgen; [|done].
  destruct (create (json_dumps C) now (w_db w) (req_design_id request)
              (req_parameters request) (req_description request) "Fede")
    as [[rev0|e] db1] eqn:Hc; [by destruct (cad_success _)|].
  rewrite (create_raise_any _ _ now' _ _ _ (req_parameters request') _
             (req_description request') _ _ _ Hc) in Hc'.
  done.
Qed.


End GenerateMore.

(** ** Updates and the table's constraints *)

Section UpdatesConstraints.

Import RevisionRepository.

Lemma same_key_pairs (l l' : list Revision) :
  Forall2 same_key l l' ->
  map (fun r => (design_id r, revision_code r)) l' =
  map (fun r => (design_id r, revision_code r)) l.
Proof.
  induction 1 as [|r r' l l' (Hd & Hc & _) _ IH]; simpl; [done|].
  by rewrite Hd, Hc, IH.
Qed.

Lemma get_by_id_elem (db : database) (rid : nat) (rev : Revision) :
  get_by_id db rid = Some rev -> rev ∈ revisions db.
Proof.
  unfold get_by_id. intros [Hin _]%find_some. by apply list_elem_of_In.
Qed.

Lemma save_constraints (db : database) (old new : Revision) :
  constraints_hold db ->
  get_by_id db (rev_id new) = Some old ->
  same_key old new ->
  allowed_eco_status (eco_status new) = true ->
  constraints_hold (save db new).
Proof.
  intros (Hids & Hpairs & Hrows) Hget Hkey Hst. split; [|split].
  - by rewrite save_rev_ids.
  - by rewrite (same_key_pairs _ _ (save_same_key db old new Hids Hget Hkey)).
  - unfold save. simpl. rewrite Forall_forall in Hrows.
    apply Forall_forall. intros x Hx.
    apply list_elem_of_fmap in Hx as (r & -> & Hr).
    destruct (rev_id r =? rev_id new); [|by apply Hrows].
    split; [done|]. destruct Hkey as (<- & _ & _).
    apply (Hrows old). by apply (get_by_id_elem db (rev_id new)).
Qed.

(** X25. Neither [update_eco_status] nor [update_output_paths] can break a
    constraint of the [revisions] table: when the constraints hold before
    the call they hold after it, raised or not. *)
Theorem updates_keep_constraints (db : database) (rid : nat) (status : string)
    (eco_number eco_reason : option string) (paths : gmap string (option string)) :
  constraints_hold db ->
  constraints_hold (snd (update_eco_status db rid status eco_number eco_reason)) /\
  constraints_hold (snd (update_output_paths db rid paths)).
Proof.
  intros Hc. split.
  - unfold update_eco_status.
    destruct (allowed_eco_status status) eqn:Hst; simpl; [|done].
    destruct (get_by_id db rid) as [rev|] eqn:Hrev; simpl; [|done].
    pose proof (get_by_id_rev_id db rid rev Hrev) as Hid. subst rid.
    by apply (save_constraints db rev (set_eco rev _ _ _)).
  - unfold update_output_paths.
    destruct (get_by_id db rid) as [rev|] eqn:Hrev; simpl; [|done].
    pose proof (get_by_id_rev_id db rid rev Hrev) as Hid. subst rid.
    apply (save_constraints db rev (set_paths rev _ _ _ _ _ _)); try done.
    destruct Hc as (_ & _ & Hrows). rewrite Forall_forall in Hrows.
    apply (Hrows rev). by apply (get_by_id_elem db (rev_id rev)).
Qed.

End UpdatesConstraints.

(** ** The bill of materials *)

Section BOMFacts.

Import BOMRepository.

Lemma make_items_length (rid idx : nat) (items : list (gmap string value))
    (bs : list BOMItem) :
  make_items rid idx items = Some bs ->
  length bs = length items /\
  map item_number bs = seq idx (length items) /\
  Forall (fun b => revision_id b = rid) bs.
Proof.
  revert idx bs. induction items as [|item items IH]; simpl; intros idx bs.
  - intros [= <-]. done.
  - unfold make_item. destruct (item !! "description") as [d|]; [|done].
    destruct (make_items rid (S idx) items) as [bs'|] eqn:E; [|done].
    intros [= <-]. destruct (IH _ _ E) as (Hl & Hn & Hr). simpl.
    rewrite Hl, Hn. split; [done|]. split; [done|]. by constructor.
Qed.

Lemma make_items_entries (rid idx : nat) (items : list (gmap string value))
    (bs : list BOMItem) (i : nat) (item : gmap string value) (b : BOMItem) :
  make_items rid idx items = Some bs ->
  items !! i = Some item -> bs !! i = Some b ->
  make_item rid (idx + i) item = Some b.
Proof.
  revert idx bs i. induction items as [|x items IH]; simpl; intros idx bs i; [done|].
  destruct (make_item rid idx x) as [b0|] eqn:Eb; [|done].
  destruct (make_items rid (S idx) items) as [bs'|] eqn:E; [|done].
  intros [= <-]. destruct i as [|i]; simpl.
  - intros [= <-] [= <-]. by rewrite Nat.add_0_r.
  - intros Hi Hb. rewrite <- Nat.add_succ_comm. by apply (IH _ _ _ E).
Qed.

Lemma make_items_some (rid idx : nat) (items : list (gmap string value)) :
  (forall item, item ∈ items -> is_Some (item !! "description")) ->
  is_Some (make_items rid idx items).
Proof.
  revert idx. induction items as [|x items IH]; simpl; intros idx Hall; [done|].
  destruct (Hall x ltac:(by left)) as [d Hd]. unfold make_item. rewrite Hd.
  destruct (IH (S idx) ltac:(intros item Hi; apply Hall; by right)) as [bs ->]. done.
Qed.


Lemma assign_ids_lookup (n : nat) (l : list BOMItem) (i : nat) (b : BOMItem) :
  assign_ids n l !! i = Some b ->
  exists b0, l !! i = Some b0 /\ b = with_id (n + i) b0.
Proof.
  revert n i. induction l as [|x l IH]; simpl; intros n i; [done|].
  destruct i as [|i]; simpl.
  - intros [= <-]. exists x. by rewrite Nat.add_0_r.
  - intros H. destruct (IH _ _ H) as (b0 & Hb0 & ->). exists b0.
    by rewrite <- Nat.add_succ_comm.
Qed.

Lemma assign_ids_fields (n : nat) (l : list BOMItem) :
  length (assign_ids n l) = length l /\
  map item_number (assign_ids n l) = map item_number l /\
  map revision_id (assign_ids n l) = map revision_id l /\
  map id (assign_ids n l) = seq n (length l).
Proof.
  revert n. induction l as [|x l IH]; simpl; intros n; [done|].
  destruct (IH (S n)) as (-> & -> & -> & ->). done.
Qed.

(** Rows whose item numbers count up are already in the order of
    [get_by_revision]. *)
Lemma sorted_by_item_number (idx : nat) (l : list BOMItem) :
  map item_number l = seq idx (length l) ->
  foldr insert_by_item_number [] l = l.
Proof.
  revert idx. induction l as [|b l IH]; simpl; intros idx; [done|].
  intros [= Hb Hl]. rewrite (IH _ Hl).
  destruct l as [|x l]; simpl; [done|].
  simpl in Hl. injection Hl as Hx _. rewrite Hb, Hx.
  by rewrite (proj2 (Nat.leb_le idx (S idx)) ltac:(lia)).
Qed.

Lemma filter_all (rid : nat) (l : list BOMItem) :
  Forall (fun b => revision_id b = rid) l ->
  List.filter (fun b => revision_id b =? rid) l = l.
Proof.
  induction 1 as [|b l Hb _ IH]; simpl; [done|]. by rewrite Hb, Nat.eqb_refl, IH.
Qed.

Lemma filter_none (rid : nat) (l : list BOMItem) :
  (forall b, b ∈ l -> revision_id b <> rid) ->
  List.filter (fun b => revision_id b =? rid) l = [].
Proof.
  induction l as [|b l IH]; simpl; intros Hall; [done|].
  destruct (revision_id b =? rid) eqn:E.
  - apply Nat.eqb_eq in E. by destruct (Hall b ltac:(by left)).
  - apply IH. intros x Hx. apply Hall. by right.
Qed.

Lemma created_revision_id (n rid : nat) (l : list BOMItem) :
  Forall (fun b => revision_id b = rid) l ->
  Forall (fun b => revision_id b = rid) (assign_ids n l).
Proof.
  intros H. revert n. induction H as [|b l Hb _ IH]; simpl; intros n; [done|].
  constructor; [done|apply IH].
Qed.

(** What [create_items] does when it returns. *)
Lemma create_items_created (db : database) (table : list BOMItem) (rid : nat)
    (items : list (gmap string value)) (created table' : list BOMItem) :
  create_items db table rid items = (Created created, table') ->
  exists pending,
    make_items rid 1 items = Some pending /\
    created = assign_ids (S (max_list (map id table))) pending /\
    table' = table ++ created.
Proof.
  unfold create_items.
  destruct (make_items rid 1 items) as [pending|] eqn:E; [|done].
  destruct pending as [|b pending].
  { intros [= <- <-]. exists []. by rewrite app_nil_r. }
  destruct (negb (existsb _ (revisions db))); [done|].
  destruct (existsb _ (b :: pending)); [done|].
  intros [= <- <-]. by exists (b :: pending).
Qed.

(** X26. When [create_items] returns, the new rows are appended to the
    table, one per entry and in the order of the entries; they carry the
    revision id, the item numbers 1, 2, ... and fresh, distinct ids. Each
    row holds the entry's description, its quantity and unit or the
    defaults 1.0 and UN, and the optional columns as the entry gives
    them. *)
Theorem create_items_rows (db : database) (table : list BOMItem) (rid : nat)
    (items : list (gmap string value)) (created table' : list BOMItem) :
  create_items db table rid items = (Created created, table') ->
  table' = table ++ created /\
  length created = length items /\
  map item_number created = seq 1 (length items) /\
  Forall (fun b => revision_id b = rid) created /\
  map id created = seq (S (max_list (map id table))) (length items) /\
  (forall b x, b ∈ created -> x ∈ table -> id x < id b) /\
  (forall i item b,
     items !! i = Some item -> created !! i = Some b ->
     item !! "description" = Some (description b) /\
     quantity b = default (VFloat 1%float) (item !! "quantity") /\
     unit b = default (VStr "UN") (item !! "unit") /\
     part_code b = item !! "part_code" /\
     material b = item !! "material" /\
     standard b = item !! "standard" /\
     unit_weight_kg b = item !! "unit_weight_kg" /\
     observations b = item !! "observations").
Proof.
  intros (pending & Hp & -> & ->)%create_items_created.
  destruct (make_items_length _ _ _ _ Hp) as (Hlen & Hnum & Hrid).
  destruct (assign_ids_fields (S (max_list (map id table))) pending)
    as (Hl & Hn & Hr & Hi).
  split; [done|]. split; [by rewrite Hl|]. split; [by rewrite Hn|].
  split; [by apply created_revision_id|]. split; [by rewrite Hi, Hlen|].
  split.
  - intros b x Hb Hx.
    assert (id b ∈ map id (assign_ids (S (max_list (map id table))) pending)) as Hin.
    { apply list_elem_of_fmap. by exists b. }
    rewrite Hi in Hin. apply list_elem_of_In, in_seq in Hin.
    assert (id x ≤ max_list (map id table)); [|lia].
    apply max_list_elem_of_le. apply list_elem_of_fmap. by exists x.
  - intros i item b Hitem Hb.
    apply assign_ids_lookup in Hb as (b0 & Hb0 & ->).
    pose proof (make_items_entries _ _ _ _ _ _ _ Hp Hitem Hb0) as Hmk.
    unfold make_item in Hmk. destruct (item !! "description") as [d|]; [|done].
    injection Hmk as <-. done.
Qed.

(** X27. For a revision that exists and has no BOM rows yet, and entries
    that all have a description, [create_items] returns, and
    [get_by_revision] then gives back exactly the created rows in their
    order; the rows read for any other revision are as before. *)
Theorem create_items_then_get_by_revision (db : database) (table : list BOMItem)
    (rid : nat) (items : list (gmap string value)) :
  (forall item, item ∈ items -> is_Some (item !! "description")) ->
  existsb (fun r => rev_id r =? rid) (revisions db) = true ->
  (forall b, b ∈ table -> revision_id b <> rid) ->
  exists created,
    create_items db table rid items = (Created created, table ++ created) /\
    get_by_revision (table ++ created) rid = created /\
    (forall rid', rid' <> rid ->
       get_by_revision (table ++ created) rid' = get_by_revision table rid').
Proof.
  intros Hdesc Hfk Hnone.
  destruct (make_items_some rid 1 items Hdesc) as [pending Hp].
  destruct (make_items_length _ _ _ _ Hp) as (Hlen & Hnum & Hrid).
  assert (existsb (number_taken table) pending = false) as Hfree.
  { apply not_true_is_false. intros (b & Hb & Htaken)%existsb_exists.
    unfold number_taken in Htaken.
    apply existsb_exists in Htaken as (x & Hx & Hsame).
    apply andb_prop in Hsame as [Hsame _]. apply Nat.eqb_eq in Hsame.
    apply (Hnone x); [by apply list_elem_of_In|].
    rewrite Forall_forall in Hrid. rewrite Hsame. apply Hrid.
    by apply list_elem_of_In. }
  exists (assign_ids (S (max_list (map id table))) pending).
  destruct (assign_ids_fields (S (max_list (map id table))) pending)
    as (Hl & Hn & Hr & Hi).
  split; [|split].
  - unfold create_items. rewrite Hp. destruct pending as [|b pending].
    + simpl. by rewrite app_nil_r.
    + by rewrite Hfk, Hfree.
  - unfold get_by_revision. rewrite List.filter_app, (filter_none rid table Hnone).
    simpl. rewrite filter_all by (by apply created_revision_id).
    apply (sorted_by_item_number 1). by rewrite Hn, Hl, Hnum, Hlen.
  - intros rid' Hne. unfold get_by_revision. rewrite List.filter_app.
    rewrite (filter_none rid' (assign_ids _ _)); [by rewrite app_nil_r|].
    intros b Hb. pose proof (created_revision_id (S (max_list (map id table))) rid _ Hrid) as Hall.
    rewrite Forall_forall in Hall. by rewrite (Hall b Hb).
Qed.


End BOMFacts.

(** ** The further properties at concrete inputs *)

Lemma fault_makes_invalid_witness :
  let rules := [Sample.rule_thick; Sample.rule_ratio] in
  let res := {| is_valid := false;
                messages :=
                  [{| rule_id := "VR-BP-01"; severity := ERROR;
                      message := "[Error evaluando regla: name 'espesor_ok' is not defined] Espesor minimo 4 mm." |}] |} in
  (validate Sample.collaborators SampleRun.params_without_thickness rules = Ok res /\
   Sample.rule_thick ∈ rules /\
   py_eval Sample.collaborators (default "True" (Sample.rule_thick !! "expression"))
     SampleRun.params_without_thickness = Raised "name 'espesor_ok' is not defined") /\
  is_valid res = false.
Proof.
  intros rules res.
  assert (Sample.rule_thick ∈ rules) as Hin by left.
  split; [split; [vm_compute; reflexivity|split; [exact Hin|vm_compute; reflexivity]]|].
  apply (fault_makes_invalid Sample.collaborators SampleRun.params_without_thickness
           rules res Sample.rule_thick "name 'espesor_ok' is not defined");
    [vm_compute; reflexivity|exact Hin|vm_compute; reflexivity].
Defined.

Lemma missing_severity_is_error_witness :
  let rules := [SampleRun.rule_no_severity] in
  let res := {| is_valid := false;
                messages := [{| rule_id := "VR-BP-03"; severity := ERROR;
                                message := "Relacion fuera de rango." |}] |} in
  (validate Sample.collaborators Sample.warned_params rules = Ok res /\
   SampleRun.rule_no_severity ∈ rules /\
   SampleRun.rule_no_severity !! "severity" = None /\
   py_eval Sample.collaborators (default "True" (SampleRun.rule_no_severity !! "expression"))
     Sample.warned_params = Passed false) /\
  is_valid res = false.
Proof.
  intros rules res.
  assert (SampleRun.rule_no_severity ∈ rules) as Hin by left.
  split; [split; [vm_compute; reflexivity|
          split; [exact Hin|split; vm_compute; reflexivity]]|].
  apply (missing_severity_is_error Sample.collaborators Sample.warned_params
           rules res SampleRun.rule_no_severity);
    [vm_compute; reflexivity|exact Hin|vm_compute; reflexivity|vm_compute; reflexivity].
Defined.

Lemma messages_come_from_rules_witness :
  let rules := [Sample.rule_thick; Sample.rule_ratio] in
  let res := SampleRun.invalid_validation in
  validate Sample.collaborators Sample.invalid_params rules = Ok res /\
  (length (messages res) <= length rules /\
   forall m, m ∈ messages res ->
     exists r, r ∈ rules /\ rule_id m = default "UNKNOWN" (r !! "rule_id")).
Proof.
  intros rules res. split; [vm_compute; reflexivity|].
  apply (messages_come_from_rules Sample.collaborators Sample.invalid_params rules res).
  vm_compute; reflexivity.
Defined.

Lemma get_latest_for_design_max_witness :
  let db := SampleRun.db_two "2026-01-01T00:00:01+00:00" "2026-01-01T00:00:02+00:00" in
  let r := SampleRun.row_B "2026-01-01T00:00:02+00:00" in
  RevisionReads.get_latest_for_design db 1 = Some r /\
  (r ∈ revisions_of db 1 /\
   forall x, x ∈ revisions_of db 1 -> rev_id x <= rev_id r).
Proof.
  intros db r. split; [vm_compute; reflexivity|].
  apply (proj2 (get_latest_for_design_max db 1) r). vm_compute; reflexivity.
Defined.

Lemma create_then_read_witness :
  let db := Sample.empty_db in
  exists rev db',
    RevisionRepository.create (fun _ => "{}") "2026-01-01T00:00:01+00:00" db 1
      Sample.valid_params "" "Fede" = (Ok rev, db') /\
    (RevisionRepository.get_by_id db' (rev_id rev) = Some rev /\
     (forall other, other <> rev_id rev ->
        RevisionRepository.get_by_id db' other = RevisionRepository.get_by_id db other) /\
     RevisionReads.get_latest_for_design db' 1 = Some rev /\
     revisions_of db' 1 = revisions_of db 1 ++ [rev] /\
     (forall d', d' <> 1 -> revisions_of db' d' = revisions_of db d')).
Proof.
  intros db. eexists _, _. split.
  - vm_compute. reflexivity.
  - apply (create_then_read (fun _ => "{}") "2026-01-01T00:00:01+00:00" db _ 1
             Sample.valid_params "" "Fede").
    vm_compute. reflexivity.
Defined.

Lemma create_edge_cases_witness :
  let db := Sample.empty_db in
  (DesignRepository.get_by_id db 1 = Some SampleRun.design1 /\
   revisions_of db 1 = []) /\
  exists rev,
    RevisionRepository.create (fun _ => "{}") "2026-01-01T00:00:01+00:00" db 1
      Sample.valid_params "" "Fede" =
    (Ok rev, with_revisions db (revisions db ++ [rev])) /\
    revision_code rev = "A".
Proof.
  intros db. split; [split; vm_compute; reflexivity|].
  apply (proj2 (proj2 (create_edge_cases (fun _ => "{}") "2026-01-01T00:00:01+00:00"
                         db 1 Sample.valid_params "" "Fede")) SampleRun.design1);
    vm_compute; reflexivity.
Defined.

Lemma latest_revision_agrees_witness :
  let db := SampleRun.db_two "2026-01-01T00:00:01+00:00" "2026-01-01T00:00:02+00:00" in
  (nondecreasing_generated_at (revisions_of db (d_id SampleRun.design1)) = true /\
   RevisionReads.increasing_rev_id (revisions_of db (d_id SampleRun.design1)) = true) /\
  (RevisionReads.latest_revision db SampleRun.design1 =
     RevisionReads.get_latest_for_design db (d_id SampleRun.design1) /\
   RevisionReads.latest_revision db SampleRun.design1 =
     last (revisions_of db (d_id SampleRun.design1))).
Proof.
  intros db. split; [split; vm_compute; reflexivity|].
  apply (latest_revision_agrees db SampleRun.design1); vm_compute; reflexivity.
Defined.

Lemma update_eco_status_twice_witness :
  let db := SampleRun.db_two "2026-01-01T00:00:01+00:00" "2026-01-01T00:00:02+00:00" in
  (RevisionRepository.allowed_eco_status "issued" = true /\
   RevisionRepository.allowed_eco_status "obsolete" = true) /\
  (RevisionRepository.update_eco_status
     (snd (RevisionRepository.update_eco_status db 1 "issued" (Some "ECO-001") None))
     1 "obsolete" None (Some "Reemplazada") =
   RevisionRepository.update_eco_status db 1 "obsolete"
     (or_else None (Some "ECO-001")) (or_else (Some "Reemplazada") None) /\
   (forall rev rev' db',
      RevisionRepository.get_by_id db 1 = Some rev ->
      RevisionRepository.update_eco_status db 1 "issued" (Some "ECO-001") None =
        (Ok (Some rev'), db') ->
      (is_Some (Models.eco_number rev) -> is_Some (Models.eco_number rev')) /\
      (is_Some (Models.eco_reason rev) -> is_Some (Models.eco_reason rev')))).
Proof.
  intros db. split; [split; vm_compute; reflexivity|].
  apply (update_eco_status_twice db 1 "issued" "obsolete" (Some "ECO-001") None
           None (Some "Reemplazada")); vm_compute; reflexivity.
Defined.

Lemma updates_keep_allocation_witness :
  let db := SampleRun.db_two "2026-01-01T00:00:01+00:00" "2026-01-01T00:00:02+00:00" in
  let paths : gmap string (option string) := {[ "dxf" := Some "base_plate_A.dxf" ]} in
  NoDup (map rev_id (revisions db)) /\
  ((map revision_code
      (RevisionRepository.get_by_design
         (snd (RevisionRepository.update_eco_status db 1 "issued" (Some "ECO-001") None)) 1) =
    map revision_code (RevisionRepository.get_by_design db 1) /\
    RevisionRepository.get_next_revision_code
      (snd (RevisionRepository.update_eco_status db 1 "issued" (Some "ECO-001") None)) 1 =
    RevisionRepository.get_next_revision_code db 1) /\
   (map revision_code
      (RevisionRepository.get_by_design
         (snd (RevisionRepository.update_output_paths db 1 paths)) 1) =
    map revision_code (RevisionRepository.get_by_design db 1) /\
    RevisionRepository.get_next_revision_code
      (snd (RevisionRepository.update_output_paths db 1 paths)) 1 =
    RevisionRepository.get_next_revision_code db 1)).
Proof.
  intros db paths.
  assert (NoDup (map rev_id (revisions db))) as Hnd.
  { simpl. apply NoDup_cons. split; [|apply NoDup_singleton].
    intros H%list_elem_of_singleton. lia. }
  split; [exact Hnd|].
  apply (updates_keep_allocation db 1 "issued" (Some "ECO-001") None paths 1). exact Hnd.
Defined.

Lemma db_two_constraints (at_A at_B : string) :
  constraints_hold (SampleRun.db_two at_A at_B).
Proof.
  split; [|split]; simpl.
  - apply NoDup_cons. split; [|apply NoDup_singleton].
    intros H%list_elem_of_singleton. lia.
  - apply NoDup_cons. split; [|apply NoDup_singleton].
    intros H%list_elem_of_singleton. discriminate.
  - repeat constructor.
Qed.

Lemma generate_success_records_paths_witness :
  let C := Sample.collaborators in
  let now := "2026-01-01T00:00:01+00:00" in
  let engine := Sample.working_engine in
  let request := Sample.request Sample.valid_params in
  let w := Sample.fresh_world in
  exists resp w',
    (PieceController.generate C now engine request w = (Ok resp, w') /\
     PieceController.success resp = true) /\
    exists rev call,
      revisions (PieceController.w_db w') = revisions (PieceController.w_db w) ++ [rev] /\
      PieceController.w_engine_calls w' = PieceController.w_engine_calls w ++ [call] /\
      PieceController.cad_success (engine call) = true /\
      RevisionRepository.get_by_id (PieceController.w_db w') (rev_id rev) = Some rev /\
      fcstd_path rev = PieceController.cad_fcstd_path (engine call) /\
      step_path rev = PieceController.cad_step_path (engine call) /\
      (dxf_path rev = None /\ pdf_path rev = None /\
       bom_xlsx_path rev = None /\ bom_pdf_path rev = None) /\
      validation_passed rev = 1%Z /\
      eco_status rev = "draft" /\
      PieceController.revision_id resp = Some (rev_id rev) /\
      PieceController.resp_revision_code resp = Some (revision_code rev) /\
      PieceController.output_dir resp = Some (PieceController.call_output_dir call) /\
      PieceController.resp_errors resp = [] /\
      PieceController.elapsed_seconds resp =
        PieceController.cad_elapsed_seconds (engine call).
Proof.
  intros C now engine request w.
  assert (exists resp w', PieceController.generate C now engine request w = (Ok resp, w') /\
                          PieceController.success resp = true) as (resp & w' & Hgen & Hs).
  { eexists _, _. split; vm_compute; reflexivity. }
  exists resp, w'. split; [by split|].
  apply (generate_success_records_paths C now engine request w w' resp Hgen Hs).
Defined.

Lemma generate_warnings_witness :
  let C := Sample.collaborators in
  let now := "2026-01-01T00:00:01+00:00" in
  let engine := Sample.failing_engine in
  let request := Sample.request Sample.warned_params in
  let w := Sample.fresh_world in
  exists resp w',
    (PieceController.generate C now engine request w = (Ok resp, w') /\
     PieceController.revision_id resp = Some 1) /\
    exists design piece_type validation rev call,
      DesignRepository.get_by_id (PieceController.w_db w)
        (PieceController.req_design_id request) = Some design /\
      get_piece_type (PieceController.w_db w) (d_piece_type_id design) = Some piece_type /\
      validate C (PieceController.req_parameters request)
        (get_validation_rules (catalog_pieces C) (pt_code piece_type)) = Ok validation /\
      errors validation = [] /\
      last (revisions (PieceController.w_db w')) = Some rev /\
      rev_id rev = 1 /\
      last (PieceController.w_engine_calls w') = Some call /\
      PieceController.resp_warnings resp =
        map message (warnings validation) ++ PieceController.cad_warnings (engine call) /\
      (warnings validation = [] -> validation_warnings_json rev = None) /\
      (warnings validation <> [] ->
       validation_warnings_json rev =
         Some (json_dumps_list C (map message (warnings validation)))).
Proof.
  intros C now engine request w.
  assert (exists resp w', PieceController.generate C now engine request w = (Ok resp, w') /\
                          PieceController.revision_id resp = Some 1)
    as (resp & w' & Hgen & Hrid).
  { eexists _, _. split; vm_compute; reflexivity. }
  exists resp, w'. split; [by split|].
  apply (generate_warnings C now engine request w w' resp 1 Hgen Hrid).
Defined.

Lemma generate_keeps_constraints_witness :
  let w := {| PieceController.w_db :=
                SampleRun.db_two "2026-01-01T00:00:01+00:00" "2026-01-01T00:00:02+00:00";
              PieceController.w_engine_calls := [];
              PieceController.w_made_dirs := [] |} in
  constraints_hold (PieceController.w_db w) /\
  constraints_hold
    (PieceController.w_db
       (snd (PieceController.generate Sample.collaborators "2026-01-01T00:00:03+00:00"
               Sample.working_engine (Sample.request Sample.valid_params) w))).
Proof.
  intros w.
  split; [apply db_two_constraints|].
  apply (generate_keeps_constraints Sample.collaborators "2026-01-01T00:00:03+00:00"
           Sample.working_engine (Sample.request Sample.valid_params) w).
  apply db_two_constraints.
Defined.

Lemma generate_raises_on_unknown_severity_witness :
  let C := SampleRun.collaborators_fatal in
  let request := Sample.request Sample.valid_params in
  let w := Sample.fresh_world in
  (DesignRepository.get_by_id (PieceController.w_db w)
     (PieceController.req_design_id request) = Some SampleRun.design1 /\
   get_piece_type (PieceController.w_db w) (d_piece_type_id SampleRun.design1) =
     Some SampleRun.piece1 /\
   Sample.rule_bad_severity ∈
     get_validation_rules (catalog_pieces C) (pt_code SampleRun.piece1) /\
   severity_in_enum Sample.rule_bad_severity = false) /\
  exists r',
    r' ∈ get_validation_rules (catalog_pieces C) (pt_code SampleRun.piece1) /\
    severity_in_enum r' = false /\
    PieceController.generate C "2026-01-01T00:00:01+00:00" Sample.working_engine request w =
    (Raise (ValueError (declared_severity r')), w).
Proof.
  intros C request w.
  assert (Sample.rule_bad_severity ∈
            get_validation_rules (catalog_pieces C) (pt_code SampleRun.piece1)) as Hin.
  { right. left. }
  split; [split; [vm_compute; reflexivity|
          split; [vm_compute; reflexivity|split; [exact Hin|vm_compute; reflexivity]]]|].
  apply (generate_raises_on_unknown_severity C "2026-01-01T00:00:01+00:00"
           Sample.working_engine request w SampleRun.design1 SampleRun.piece1
           Sample.rule_bad_severity);
    [vm_compute; reflexivity|vm_compute; reflexivity|exact Hin|vm_compute; reflexivity].
Defined.

Lemma generate_integrity_error_persists_witness :
  let C := Sample.collaborators in
  let request := Sample.request Sample.valid_params in
  let w := SampleRun.world_clock_back in
  PieceController.generate C "2026-01-01T00:00:03+00:00" Sample.working_engine request w =
    (Raise (IntegrityError "uq_revisions_design_rev"), w) /\
  (w = w /\
   forall now' engine' request',
     PieceController.req_design_id request' = PieceController.req_design_id request ->
     snd (PieceController.generate C now' engine' request' w) = w /\
     forall resp, fst (PieceController.generate C now' engine' request' w) = Ok resp ->
                  PieceController.revision_id resp = None).
Proof.
  intros C request w. split; [vm_compute; reflexivity|].
  apply (generate_integrity_error_persists C "2026-01-01T00:00:03+00:00"
           Sample.working_engine request w w "uq_revisions_design_rev").
  vm_compute; reflexivity.
Defined.


Lemma updates_keep_constraints_witness :
  let db := SampleRun.db_two "2026-01-01T00:00:01+00:00" "2026-01-01T00:00:02+00:00" in
  let paths : gmap string (option string) := {[ "dxf" := Some "base_plate_A.dxf" ]} in
  constraints_hold db /\
  (constraints_hold
     (snd (RevisionRepository.update_eco_status db 1 "issued" (Some "ECO-001") None)) /\
   constraints_hold (snd (RevisionRepository.update_output_paths db 1 paths))).
Proof.
  intros db paths. split; [apply db_two_constraints|].
  apply (updates_keep_constraints db 1 "issued" (Some "ECO-001") None paths).
  apply db_two_constraints.
Defined.

Lemma create_items_rows_witness :
  let db := SampleRun.db_two "2026-01-01T00:00:01+00:00" "2026-01-01T00:00:02+00:00" in
  let table : list BOMRepository.BOMItem := [] in
  let items := SampleRun.bom_entries in
  exists created table',
    BOMRepository.create_items db table 1 items = (BOMRepository.Created created, table') /\
    (table' = table ++ created /\
     length created = length items /\
     map BOMRepository.item_number created = seq 1 (length items) /\
     Forall (fun b => BOMRepository.revision_id b = 1) created /\
     map BOMRepository.id created =
       seq (S (max_list (map BOMRepository.id table))) (length items) /\
     (forall b x, b ∈ created -> x ∈ table -> BOMRepository.id x < BOMRepository.id b) /\
     (forall i item b,
        items !! i = Some item -> created !! i = Some b ->
        item !! "description" = Some (BOMRepository.description b) /\
        BOMRepository.quantity b = default (VFloat 1%float) (item !! "quantity") /\
        BOMRepository.unit b = default (VStr "UN") (item !! "unit") /\
        BOMRepository.part_code b = item !! "part_code" /\
        BOMRepository.material b = item !! "material" /\
        BOMRepository.standard b = item !! "standard" /\
        BOMRepository.unit_weight_kg b = item !! "unit_weight_kg" /\
        BOMRepository.observations b = item !! "observations")).
Proof.
  intros db table items. eexists _, _. split.
  - vm_compute. reflexivity.
  - apply (create_items_rows db table 1 items). vm_compute. reflexivity.
Defined.

Lemma create_items_then_get_by_revision_witness :
  let db := SampleRun.db_two "2026-01-01T00:00:01+00:00" "2026-01-01T00:00:02+00:00" in
  let table : list BOMRepository.BOMItem :=
    [{| BOMRepository.id := 1; BOMRepository.revision_id := 2;
        BOMRepository.item_number := 1; BOMRepository.part_code := None;
        BOMRepository.description := VStr "Placa base";
        BOMRepository.quantity := VFloat 1%float; BOMRepository.unit := VStr "UN";
        BOMRepository.material := None; BOMRepository.standard := None;
        BOMRepository.unit_weight_kg := None; BOMRepository.observations := None |}] in
  let items := SampleRun.bom_entries in
  ((forall item, item ∈ items -> is_Some (item !! "description")) /\
   existsb (fun r => rev_id r =? 1) (revisions db) = true /\
   (forall b, b ∈ table -> BOMRepository.revision_id b <> 1)) /\
  exists created,
    BOMRepository.create_items db table 1 items =
      (BOMRepository.Created created, table ++ created) /\
    BOMRepository.get_by_revision (table ++ created) 1 = created /\
    (forall rid', rid' <> 1 ->
       BOMRepository.get_by_revision (table ++ created) rid' =
       BOMRepository.get_by_revision table rid').
Proof.
  intros db table items.
  assert (forall item, item ∈ items -> is_Some (item !! "description")) as Hdesc.
  { intros item [->|[->|H]%elem_of_cons]%elem_of_cons.
    - by eexists.
    - by eexists.
    - by apply elem_of_nil in H. }
  assert (forall b, b ∈ table -> BOMRepository.revision_id b <> 1) as Hnone.
  { intros b [->|H]%elem_of_cons; [simpl; lia|by apply elem_of_nil in H]. }
  split; [split; [exact Hdesc|split; [vm_compute; reflexivity|exact Hnone]]|].
  apply (create_items_then_get_by_revision db table 1 items);
    [exact Hdesc|vm_compute; reflexivity|exact Hnone].
Defined.

